(** * Library catalogue manager (src/main.cpp): a shallow embedding

    The in-memory [LibraryManager] of [src/main.cpp] with its three vectors
    (books, readers, loans), its mutating operations and queries, the JSON
    mapping used by [Save] and [Load], and the interactive loop of [main].

    Conventions of the embedding:
    - a [std::vector] is a [list]; an iterator or an element pointer into a
      vector is the index of the element, [end()] / [nullptr] being "no index";
    - [int] is a [Z] in the 32-bit signed range, the wrap-around of an
      arithmetic result written out with [wrap_int];
    - [std::optional<std::string>] is [option string];
    - [now_iso()] reads the wall clock: every operation that calls it takes the
      string it returned as an extra argument [now];
    - an operation that returns [bool] and mutates [*this] returns the pair of
      the boolean and the new manager;
    - the files are a map from the name of a file to what it holds; an [os]
      record tells which file a path names and whether that file can be
      opened for reading and for writing. *)

From Stdlib Require Import ZArith Lia DecimalString.
From stdpp Require Import base list strings gmap.

(** ** Data model (main.cpp, lines 12-71) *)

Record Book := mkBook {
  Title : string;
  Author : string;
  ISBN : string;
  IsAvailable : bool
}.

(** [Book b;] : the default member initialisers. *)
Definition default_Book : Book := mkBook "" "" "" true.

Definition MarkAsLoaned (b : Book) : Book :=
  mkBook (Title b) (Author b) (ISBN b) false.

Definition MarkAsAvailable (b : Book) : Book :=
  mkBook (Title b) (Author b) (ISBN b) true.

Record Reader := mkReader {
  Id : Z;
  Name : string;
  Email : string
}.

Record Loan := mkLoan {
  BookISBN : string;
  ReaderId : Z;
  LoanDate : string;
  ReturnDate : option string
}.

(** [!l.ReturnDate] *)
Definition no_ReturnDate (l : Loan) : bool :=
  match ReturnDate l with
  | Some _ => false
  | None => true
  end.

Definition set_ReturnDate (now : string) (l : Loan) : Loan :=
  mkLoan (BookISBN l) (ReaderId l) (LoanDate l) (Some now).

Record LibraryManager := mkLibraryManager {
  Books : list Book;
  Readers : list Reader;
  Loans : list Loan
}.

(** A freshly constructed manager: three empty vectors. *)
Definition empty_manager : LibraryManager := mkLibraryManager [] [] [].

(** ** 32-bit [int] *)

Definition INT_MAX : Z := 2147483647.
Definition INT_MIN : Z := -2147483648.

Definition in_int (z : Z) : Prop := (INT_MIN <= z <= INT_MAX)%Z.

(** The value an out-of-range result takes in two's complement. *)
Definition wrap_int (z : Z) : Z := ((z + 2147483648) mod 4294967296 - 2147483648)%Z.

(** ** [std::find_if] and the lookups built on it *)

(** The position of the first element satisfying [p]; [length v] (the
    [end()] iterator) when there is none. *)
Fixpoint find_if {A : Type} (p : A -> bool) (v : list A) : nat :=
  match v with
  | [] => 0
  | x :: v' => if p x then 0 else S (find_if p v')
  end.

Definition isbn_is (isbn : string) (b : Book) : bool := String.eqb (ISBN b) isbn.
Definition id_is (id : Z) (r : Reader) : bool := (Id r =? id)%Z.

(** [Book* FindBook(isbn)]: the pointer is the index of the element. *)
Definition FindBook (m : LibraryManager) (isbn : string) : option nat :=
  let it := find_if (isbn_is isbn) (Books m) in
  if (it =? length (Books m))%nat then None else Some it.

Definition FindReader (m : LibraryManager) (id : Z) : option nat :=
  let it := find_if (id_is id) (Readers m) in
  if (it =? length (Readers m))%nat then None else Some it.

(** ** Operations of [LibraryManager] (main.cpp, lines 86-147, 197-206) *)

Definition AddBook (m : LibraryManager) (b : Book) : bool * LibraryManager :=
  match FindBook m (ISBN b) with
  | Some _ => (false, m)
  | None => (true, mkLibraryManager (Books m ++ [b]) (Readers m) (Loans m))
  end.

Definition RemoveBook (m : LibraryManager) (isbn : string) : bool * LibraryManager :=
  let it := find_if (isbn_is isbn) (Books m) in
  if (it =? length (Books m))%nat then (false, m)
  else
    match Books m !! it with
    | Some x =>
        if negb (IsAvailable x) then (false, m)
        else (true, mkLibraryManager (delete it (Books m)) (Readers m) (Loans m))
    | None => (false, m) (* not reached: [it] is a valid position here *)
    end.

(** The loop of [NextReaderId]: one step per reader. *)
Definition max_step (maxId : Z) (r : Reader) : Z :=
  if (Id r >? maxId)%Z then Id r else maxId.

Definition NextReaderId (m : LibraryManager) : Z :=
  let maxId := fold_left max_step (Readers m) 0%Z in
  wrap_int (maxId + 1).

Definition AddReader (m : LibraryManager) (r : Reader) : bool * LibraryManager :=
  if existsb (id_is (Id r)) (Readers m) then (false, m)
  else (true, mkLibraryManager (Books m) (Readers m ++ [r]) (Loans m)).

(** The erase loop of [RemoveReader] (lines 117-120): at each position the
    loan is erased when it belongs to [id] and has no return date, and the
    iterator advances otherwise. *)
Fixpoint erase_active_loans (id : Z) (loans : list Loan) : list Loan :=
  match loans with
  | [] => []
  | l :: rest =>
      if (ReaderId l =? id)%Z && no_ReturnDate l
      then erase_active_loans id rest
      else l :: erase_active_loans id rest
  end.

Definition RemoveReader (m : LibraryManager) (id : Z) : bool * LibraryManager :=
  let it := find_if (id_is id) (Readers m) in
  if (it =? length (Readers m))%nat then (false, m)
  else (true, mkLibraryManager (Books m) (delete it (Readers m))
                (erase_active_loans id (Loans m))).

Definition IssueLoan (m : LibraryManager) (isbn : string) (readerId : Z)
    (now : string) : bool * LibraryManager :=
  match FindBook m isbn with
  | None => (false, m)
  | Some b =>
      match Books m !! b with
      | None => (false, m) (* not reached: [b] points into [Books] *)
      | Some bk =>
          if negb (IsAvailable bk) then (false, m)
          else
            match FindReader m readerId with
            | None => (false, m)
            | Some _ =>
                let ln := mkLoan isbn readerId now None in
                (true, mkLibraryManager (alter MarkAsLoaned b (Books m))
                         (Readers m) (Loans m ++ [ln]))
            end
      end
  end.

(** The predicate of the [find_if] in [ReturnBook]. *)
Definition active_loan_of (isbn : string) (readerId : Z) (l : Loan) : bool :=
  String.eqb (BookISBN l) isbn && (ReaderId l =? readerId)%Z && no_ReturnDate l.

Definition ReturnBook (m : LibraryManager) (isbn : string) (readerId : Z)
    (now : string) : bool * LibraryManager :=
  let it := find_if (active_loan_of isbn readerId) (Loans m) in
  if (it =? length (Loans m))%nat then (false, m)
  else
    let loans' := alter (set_ReturnDate now) it (Loans m) in
    let books' :=
      match FindBook m isbn with
      | Some b => alter MarkAsAvailable b (Books m)
      | None => Books m
      end in
    (true, mkLibraryManager books' (Readers m) loans').

Definition AvailableBooks (m : LibraryManager) : list Book :=
  List.filter IsAvailable (Books m).

Definition ActiveLoans (m : LibraryManager) : list Loan :=
  List.filter no_ReturnDate (Loans m).

(** ** JSON documents and the part of the JSON library the program calls *)

(** Modelled from the spec: [json.hpp], the nlohmann::json header that
    main.cpp includes, is not among the sources.  The specification treats it
    as a serialization primitive: a document is an opaque JSON value, reading
    a malformed file raises an error that [Load] catches.  A document is kept
    here as the value it denotes, an object listing its members in key order
    (the library stores them in a [std::map]); what the accessors below do on
    a member of the wrong type follows the library's documentation.  Numbers
    are restricted to integers. *)
#[warnings="-register-all"] Inductive json :=
| JNull
| JBool (b : bool)
| JInt (z : Z)
| JString (s : string)
| JArray (items : list json)
| JObject (members : list (string * json)).

(** How a call ends: with a value, with a C++ exception (caught by the
    [catch (...)] of [Load]), or in a failed library assertion, which ends the
    process. *)
Inductive outcome (A : Type) :=
| Ok (a : A)
| Throw
| Abort.
Arguments Ok {A} a.
Arguments Throw {A}.
Arguments Abort {A}.

Definition bind {A B : Type} (o : outcome A) (k : A -> outcome B) : outcome B :=
  match o with
  | Ok a => k a
  | Throw => Throw
  | Abort => Abort
  end.

Notation "'let*' x ':=' o 'in' k" := (bind o (fun x => k))
  (at level 10, x name, o at level 100, k at level 200).

Fixpoint json_find (key : string) (members : list (string * json)) : option json :=
  match members with
  | [] => None
  | (k, v) :: rest => if String.eqb k key then Some v else json_find key rest
  end.

(** [j.value(key, default)] at type [std::string]: the default when the key
    is missing, type_error 302 when the member is not a string, type_error
    306 when [j] is not an object. *)
Definition value_string (key default : string) (j : json) : outcome string :=
  match j with
  | JObject ms =>
      match json_find key ms with
      | None => Ok default
      | Some (JString s) => Ok s
      | Some _ => Throw
      end
  | _ => Throw
  end.

Definition value_bool (key : string) (default : bool) (j : json) : outcome bool :=
  match j with
  | JObject ms =>
      match json_find key ms with
      | None => Ok default
      | Some (JBool b) => Ok b
      | Some _ => Throw
      end
  | _ => Throw
  end.

(** [j.value(key, default)] at type [int]: a number is converted with
    [static_cast<int>], a boolean counts as 0 or 1. *)
Definition value_int (key : string) (default : Z) (j : json) : outcome Z :=
  match j with
  | JObject ms =>
      match json_find key ms with
      | None => Ok default
      | Some (JInt z) => Ok (wrap_int z)
      | Some (JBool b) => Ok (if b then 1%Z else 0%Z)
      | Some _ => Throw
      end
  | _ => Throw
  end.

(** [j[key]] on a [const json&]: the library asserts that the key is there. *)
Definition const_at (key : string) (j : json) : outcome json :=
  match j with
  | JObject ms =>
      match json_find key ms with
      | Some v => Ok v
      | None => Abort
      end
  | _ => Throw
  end.

Definition is_null (j : json) : bool :=
  match j with
  | JNull => true
  | _ => false
  end.

(** What [for (auto &x : j)] visits: the elements of an array, the member
    values of an object, nothing for null, the value itself otherwise. *)
Definition json_items (j : json) : list json :=
  match j with
  | JArray items => items
  | JObject ms => map snd ms
  | JNull => []
  | _ => [j]
  end.

(** ** The JSON mapping of the three entities (main.cpp, lines 21-31, 39-48, 57-70) *)

Definition Book_to_json (b : Book) : json :=
  JObject [("Author", JString (Author b)); ("ISBN", JString (ISBN b));
           ("IsAvailable", JBool (IsAvailable b)); ("Title", JString (Title b))].

Definition Book_from_json (j : json) : outcome Book :=
  let* title := value_string "Title" "" j in
  let* author := value_string "Author" "" j in
  let* isbn := value_string "ISBN" "" j in
  let* avail := value_bool "IsAvailable" true j in
  Ok (mkBook title author isbn avail).

Definition Reader_to_json (r : Reader) : json :=
  JObject [("Email", JString (Email r)); ("Id", JInt (Id r)); ("Name", JString (Name r))].

Definition Reader_from_json (j : json) : outcome Reader :=
  let* id := value_int "Id" 0 j in
  let* name := value_string "Name" "" j in
  let* email := value_string "Email" "" j in
  Ok (mkReader id name email).

Definition Loan_to_json (l : Loan) : json :=
  JObject [("BookISBN", JString (BookISBN l)); ("LoanDate", JString (LoanDate l));
           ("ReaderId", JInt (ReaderId l));
           ("ReturnDate", match ReturnDate l with
                          | Some d => JString d
                          | None => JNull
                          end)].

Definition Loan_from_json (j : json) : outcome Loan :=
  let* isbn := value_string "BookISBN" "" j in
  let* rid := value_int "ReaderId" 0 j in
  let* date := value_string "LoanDate" "" j in
  let* rd := const_at "ReturnDate" j in
  if negb (is_null rd)
  then let* ret := value_string "ReturnDate" "" j in Ok (mkLoan isbn rid date (Some ret))
  else Ok (mkLoan isbn rid date None).

(** ** Files, [Save] and [Load] (main.cpp, lines 160-195) *)

(** Modelled from the spec: what a file holds, as far as the library's
    [f >> j] is concerned: text that does not parse, on which it throws, or a
    JSON document.  The text itself is not modelled: writing [j.dump(4)] and
    parsing it back gives [j]. *)
Inductive file :=
| Unparsable
| Document (j : json).

(** The files that exist, by the name of the file. *)
Abbreviation files := (gmap string file).

(** The operating system, as far as opening a stream goes: the file that a
    path names (two paths may name one file), and whether that file can be
    opened for reading and for writing. *)
Record os := mkOs {
  file_of : string -> string;
  can_read : string -> bool;
  can_write : string -> bool
}.

(** Every path names the file of that very name, and every file can be read
    and written. *)
Definition plain_os : os := mkOs (fun path => path) (fun _ => true) (fun _ => true).

(** [std::ifstream f(path); if (f)]: the stream is good when the file exists
    and can be read. *)
Definition open_read (env : os) (fs : files) (path : string) : option file :=
  if can_read env (file_of env path) then fs !! file_of env path else None.

(** [std::ofstream(path) << j.dump(4)]: the file is created or replaced; when
    it cannot be opened nothing is written, and the program, which never
    tests the stream, goes on. *)
Definition write_file (env : os) (path : string) (j : json) (fs : files) : files :=
  if can_write env (file_of env path) then <[file_of env path := Document j]> fs
  else fs.

Definition Save (env : os) (m : LibraryManager) (fs : files)
    (booksFile readersFile loansFile : string) : files :=
  let jb := JArray (map Book_to_json (Books m)) in
  let fs1 := write_file env booksFile jb fs in
  let jr := JArray (map Reader_to_json (Readers m)) in
  let fs2 := write_file env readersFile jr fs1 in
  let jl := JArray (map Loan_to_json (Loans m)) in
  write_file env loansFile jl fs2.

(** [for (auto &x : j) v.push_back(T::from_json(x));] : elements pushed before
    an exception stay in the vector. *)
Fixpoint push_all {A : Type} (from_json : json -> outcome A) (items : list json)
    (v : list A) : list A * outcome unit :=
  match items with
  | [] => (v, Ok tt)
  | x :: rest =>
      match from_json x with
      | Ok a => push_all from_json rest (v ++ [a])
      | Throw => (v, Throw)
      | Abort => (v, Abort)
      end
  end.

(** One [std::ifstream f(path); if (f) { json j; f >> j; for ... }] block. *)
Definition read_into {A : Type} (from_json : json -> outcome A) (env : os)
    (fs : files) (path : string) (v : list A) : list A * outcome unit :=
  match open_read env fs path with
  | None => (v, Ok tt)
  | Some Unparsable => (v, Throw)
  | Some (Document j) => push_all from_json (json_items j) v
  end.

(** [Load]: [None] when the process is ended inside it, the manager after the
    call otherwise.  The handler of the [try] block is empty. *)
Definition Load (env : os) (m : LibraryManager) (fs : files)
    (booksFile readersFile loansFile : string) : option LibraryManager :=
  let books0 : list Book := [] in
  let readers0 : list Reader := [] in
  let loans0 : list Loan := [] in
  let '(books, o1) := read_into Book_from_json env fs booksFile books0 in
  match o1 with
  | Abort => None
  | Throw => Some (mkLibraryManager books readers0 loans0)
  | Ok _ =>
      let '(readers, o2) := read_into Reader_from_json env fs readersFile readers0 in
      match o2 with
      | Abort => None
      | Throw => Some (mkLibraryManager books readers loans0)
      | Ok _ =>
          let '(loans, o3) := read_into Loan_from_json env fs loansFile loans0 in
          match o3 with
          | Abort => None
          | _ => Some (mkLibraryManager books readers loans)
          end
      end
  end.

(** ** Operation sequences *)

Inductive op :=
| OpAddBook (b : Book)
| OpRemoveBook (isbn : string)
| OpAddReader (r : Reader)
| OpRemoveReader (id : Z)
| OpIssueLoan (isbn : string) (readerId : Z) (now : string)
| OpReturnBook (isbn : string) (readerId : Z) (now : string).

Definition step (m : LibraryManager) (o : op) : LibraryManager :=
  snd match o with
      | OpAddBook b => AddBook m b
      | OpRemoveBook isbn => RemoveBook m isbn
      | OpAddReader r => AddReader m r
      | OpRemoveReader id => RemoveReader m id
      | OpIssueLoan isbn rid now => IssueLoan m isbn rid now
      | OpReturnBook isbn rid now => ReturnBook m isbn rid now
      end.

Definition run (ops : list op) (m : LibraryManager) : LibraryManager :=
  fold_left step ops m.

(** The states of the claims: reached from the empty manager. *)
Definition reachable (m : LibraryManager) : Prop :=
  exists ops, run ops empty_manager = m.

(** "There is a loan in Loans with that ISBN and no return date." *)
Definition has_active_loan (m : LibraryManager) (isbn : string) : bool :=
  existsb (fun l => String.eqb (BookISBN l) isbn && no_ReturnDate l) (Loans m).

(** The reader menu of [main] (commands 3 and 4): a new reader takes the Id
    that [NextReaderId] returns. *)
Inductive reader_op :=
| NewReader (name email : string)
| DropReader (id : Z).

Definition reader_step (m : LibraryManager) (o : reader_op) : LibraryManager :=
  match o with
  | NewReader name email => snd (AddReader m (mkReader (NextReaderId m) name email))
  | DropReader id => snd (RemoveReader m id)
  end.

Definition reader_run (ops : list reader_op) (m : LibraryManager) : LibraryManager :=
  fold_left reader_step ops m.

(** ** Statement vocabulary *)

(** The invariant of the data model: a book's flag is the negation of
    "has an active loan for its ISBN". *)
Definition availability_in_sync (m : LibraryManager) : Prop :=
  forall b, b ∈ Books m -> IsAvailable b = negb (has_active_loan m (ISBN b)).

(** Loan records of [isbn] whose return date is set. *)
Definition returned_loans (isbn : string) (loans : list Loan) : list Loan :=
  filter (fun l => BookISBN l = isbn /\ ReturnDate l <> None) loans.

(** The int-typed fields hold values of type [int]. *)
Definition ints_in_range (m : LibraryManager) : Prop :=
  Forall (fun r => in_int (Id r)) (Readers m) /\
  Forall (fun l => in_int (ReaderId l)) (Loans m).

(** [x] is the first element of [v] with property [P]: [l1] before it has
    none, [l2] follows it. *)
Definition first_with {A : Type} (P : A -> Prop) (v l1 : list A) (x : A)
    (l2 : list A) : Prop :=
  v = l1 ++ x :: l2 /\ P x /\ Forall (fun y => ~ P y) l1.

(** ** The operations as a labelled step relation

    [effect m o m']: operation [o] succeeds in [m] and leaves [m'].  Each rule
    gives the successful branch of one operation in terms of the element it
    finds. *)

Definition keeps_loan (id : Z) (l : Loan) : Prop :=
  ~ (ReaderId l = id /\ ReturnDate l = None).

Inductive effect (m : LibraryManager) : op -> LibraryManager -> Prop :=
| effect_AddBook (b : Book) :
    (forall x, x ∈ Books m -> ISBN x <> ISBN b) ->
    effect m (OpAddBook b) (mkLibraryManager (Books m ++ [b]) (Readers m) (Loans m))
| effect_RemoveBook (isbn : string) (l1 : list Book) (b : Book) (l2 : list Book) :
    first_with (fun x => ISBN x = isbn) (Books m) l1 b l2 ->
    IsAvailable b = true ->
    effect m (OpRemoveBook isbn) (mkLibraryManager (l1 ++ l2) (Readers m) (Loans m))
| effect_AddReader (r : Reader) :
    (forall x, x ∈ Readers m -> Id x <> Id r) ->
    effect m (OpAddReader r) (mkLibraryManager (Books m) (Readers m ++ [r]) (Loans m))
| effect_RemoveReader (id : Z) (l1 : list Reader) (r : Reader) (l2 : list Reader) :
    first_with (fun x => Id x = id) (Readers m) l1 r l2 ->
    effect m (OpRemoveReader id)
      (mkLibraryManager (Books m) (l1 ++ l2) (filter (keeps_loan id) (Loans m)))
| effect_IssueLoan (isbn : string) (rid : Z) (now : string)
    (l1 : list Book) (b : Book) (l2 : list Book) :
    first_with (fun x => ISBN x = isbn) (Books m) l1 b l2 ->
    IsAvailable b = true ->
    (exists r, r ∈ Readers m /\ Id r = rid) ->
    effect m (OpIssueLoan isbn rid now)
      (mkLibraryManager (l1 ++ MarkAsLoaned b :: l2) (Readers m)
         (Loans m ++ [mkLoan isbn rid now None]))
| effect_ReturnBook (isbn : string) (rid : Z) (now : string)
    (k1 : list Loan) (l : Loan) (k2 : list Loan)
    (l1 : list Book) (b : Book) (l2 : list Book) :
    Loans m = k1 ++ l :: k2 -> BookISBN l = isbn -> ReturnDate l = None ->
    first_with (fun x => ISBN x = isbn) (Books m) l1 b l2 ->
    effect m (OpReturnBook isbn rid now)
      (mkLibraryManager (l1 ++ MarkAsAvailable b :: l2) (Readers m)
         (k1 ++ set_ReturnDate now l :: k2))
| effect_ReturnBook_no_book (isbn : string) (rid : Z) (now : string)
    (k1 : list Loan) (l : Loan) (k2 : list Loan) :
    Loans m = k1 ++ l :: k2 -> BookISBN l = isbn -> ReturnDate l = None ->
    (forall x, x ∈ Books m -> ISBN x <> isbn) ->
    effect m (OpReturnBook isbn rid now)
      (mkLibraryManager (Books m) (Readers m) (k1 ++ set_ReturnDate now l :: k2)).

(** Active loan records of one ISBN. *)
Definition active_loans_of (isbn : string) (loans : list Loan) : list Loan :=
  filter (fun l => BookISBN l = isbn /\ ReturnDate l = None) loans.

(** What every reachable manager satisfies: ISBNs are distinct, an ISBN has
    at most one active loan, and the book of an active loan is present and
    flagged unavailable. *)
Definition loans_consistent (m : LibraryManager) : Prop :=
  NoDup (ISBN <$> Books m) /\
  (forall isbn, length (active_loans_of isbn (Loans m)) <= 1) /\
  (forall l, l ∈ Loans m -> ReturnDate l = None ->
     exists b, b ∈ Books m /\ ISBN b = BookISBN l /\ IsAvailable b = false).

(** The other half of the invariant: an unavailable book is on loan. *)
Definition unavailable_books_on_loan (m : LibraryManager) : Prop :=
  forall b, b ∈ Books m -> IsAvailable b = false ->
    exists l, l ∈ Loans m /\ BookISBN l = ISBN b /\ ReturnDate l = None.

(** Operations as the menu of [main] issues them, and no removal of a reader
    who still holds a book: a book is added with the default IsAvailable, and
    RemoveReader(id) is called when no loan of [id] is active. *)
Definition regular (m : LibraryManager) (o : op) : Prop :=
  match o with
  | OpAddBook b => IsAvailable b = true
  | OpRemoveReader id => forall l, l ∈ Loans m -> ReaderId l = id -> ReturnDate l <> None
  | _ => True
  end.

Fixpoint regular_run (ops : list op) (m : LibraryManager) : Prop :=
  match ops with
  | [] => True
  | o :: rest => regular m o /\ regular_run rest (step m o)
  end.

(** The Ids that [NextReaderId] handed out along a run of the reader menu
    started in [m]. *)
Fixpoint assigned_ids (ops : list reader_op) (m : LibraryManager) : list Z :=
  match ops with
  | [] => []
  | NewReader name email :: rest =>
      NextReaderId m :: assigned_ids rest (reader_step m (NewReader name email))
  | DropReader id :: rest => assigned_ids rest (reader_step m (DropReader id))
  end.

(** "NextReaderId never returns an Id that was assigned before to a reader who
    has since been removed", after the run [ops] from the empty manager. *)
Definition never_reused (ops : list reader_op) : Prop :=
  let m := reader_run ops empty_manager in
  forall id, id ∈ assigned_ids ops empty_manager ->
             (forall r, r ∈ Readers m -> Id r <> id) ->
             NextReaderId m <> id.


(** ** Concrete managers and files used in the examples *)

Definition dune : Book := mkBook "Dune" "Herbert" "111" true.
Definition dune_loaned : Book := mkBook "Dune" "Herbert" "111" false.
Definition messiah : Book := mkBook "Dune Messiah" "Herbert" "111" true.
Definition ann : Reader := mkReader 1 "Ann" "ann@example.org".

(** The scenario of the specification up to the loan, then the borrower is
    removed. *)
Definition ops_remove_borrower : list op :=
  [OpAddBook dune; OpAddReader ann; OpIssueLoan "111" 1 "2024-01-01T10:00:00Z";
   OpRemoveReader 1].

(** One complete loan of the book: issued, then returned. *)
Definition ops_one_round : list op :=
  [OpAddBook dune; OpAddReader ann; OpIssueLoan "111" 1 "2024-01-01T10:00:00Z";
   OpReturnBook "111" 1 "2024-01-08T10:00:00Z"].

Definition manager_with_history : LibraryManager := run ops_one_round empty_manager.

(** Two readers join, the second leaves. *)
Definition reader_ops_reuse : list reader_op :=
  [NewReader "Ann" "ann@example.org"; NewReader "Bob" "bob@example.org"; DropReader 2].

(** The three destinations are three different files, each of which can be
    written and read back. *)
Definition destinations_usable (env : os) (books readers loans : string) : Prop :=
  file_of env books <> file_of env readers /\
  file_of env books <> file_of env loans /\
  file_of env readers <> file_of env loans /\
  Forall (fun path => can_write env (file_of env path) = true /\
                      can_read env (file_of env path) = true)
         [books; readers; loans].

(** A system on which books.json cannot be written. *)
Definition books_read_only : os :=
  mkOs (fun path => path) (fun _ => true) (fun f => negb (String.eqb f "books.json")).

(** The book was lent and returned once and is now on loan again. *)
Definition manager_with_two_loans : LibraryManager :=
  run (ops_one_round ++ [OpIssueLoan "111" 1 "2024-02-01T10:00:00Z"]) empty_manager.

(** A valid books file next to a readers file that does not parse. *)
Definition fs_bad_readers : files :=
  {[ "books.json" := Document (JArray [Book_to_json dune]);
     "readers.json" := Unparsable ]}.

(** A books file with two entries of one ISBN. *)
Definition fs_duplicate_isbn : files :=
  {[ "books.json" := Document (JArray [Book_to_json dune; Book_to_json messiah]) ]}.

Definition manager_with_duplicates : LibraryManager :=
  mkLibraryManager [dune; messiah] [ann] [].

(** An operation with the boolean it returns. *)
Definition perform (m : LibraryManager) (o : op) : bool * LibraryManager :=
  match o with
  | OpAddBook b => AddBook m b
  | OpRemoveBook isbn => RemoveBook m isbn
  | OpAddReader r => AddReader m r
  | OpRemoveReader id => RemoveReader m id
  | OpIssueLoan isbn rid now => IssueLoan m isbn rid now
  | OpReturnBook isbn rid now => ReturnBook m isbn rid now
  end.

(** Loan records that are closed. *)
Definition closed_loans (loans : list Loan) : list Loan :=
  filter (fun l => ReturnDate l <> None) loans.

(** The borrower of every active loan is a reader of the manager. *)
Definition borrowers_present (m : LibraryManager) : Prop :=
  forall l, l ∈ Loans m -> ReturnDate l = None ->
    exists r, r ∈ Readers m /\ Id r = ReaderId l.

(** ** SearchBooks (main.cpp, lines 149-158 and 209-212) *)

(** [std::tolower] on an [unsigned char] in the "C" locale, the locale of a
    program that never calls [setlocale]: the letters A-Z go to a-z, every
    other byte stays. *)
Definition tolower (c : Ascii.ascii) : Ascii.ascii :=
  let n := Ascii.nat_of_ascii c in
  if (65 <=? n)%nat && (n <=? 90)%nat then Ascii.ascii_of_nat (n + 32) else c.

Fixpoint Lower (s : string) : string :=
  match s with
  | EmptyString => EmptyString
  | String c s' => String (tolower c) (Lower s')
  end.

(** [q] is read at the start of [s]. *)
Fixpoint starts_with (q s : string) : bool :=
  match q, s with
  | EmptyString, _ => true
  | String a q', String b s' => Ascii.eqb a b && starts_with q' s'
  | String _ _, EmptyString => false
  end.

(** [s.find(q)]: the first position at which [q] occurs in [s], [None] for
    [npos]. *)
Fixpoint string_find (s q : string) : option nat :=
  if starts_with q s then Some 0
  else match s with
       | EmptyString => None
       | String _ s' => S <$> string_find s' q
       end.

(** [s.find(q) != std::string::npos] *)
Definition occurs_in (q s : string) : bool :=
  match string_find s q with
  | Some _ => true
  | None => false
  end.

Definition term_matches (q : string) (b : Book) : bool :=
  occurs_in q (Lower (Title b)) || occurs_in q (Lower (Author b)).

Definition SearchBooks (m : LibraryManager) (term : string) : list Book :=
  match term with
  | EmptyString => Books m
  | _ => let q := Lower term in List.filter (term_matches q) (Books m)
  end.

(** Two bytes that are equal, or the same letter of A-Z and a-z in the two
    cases. *)
Definition same_letter (a b : Ascii.ascii) : bool :=
  let x := Ascii.nat_of_ascii a in
  let y := Ascii.nat_of_ascii b in
  (x =? y)%nat
  || ((65 <=? x)%nat && (x <=? 90)%nat && (y =? x + 32)%nat)
  || ((65 <=? y)%nat && (y <=? 90)%nat && (x =? y + 32)%nat).

(** Two texts that differ at most in the case of their letters. *)
Fixpoint same_up_to_case (s t : string) : bool :=
  match s, t with
  | EmptyString, EmptyString => true
  | String a s', String b t' => same_letter a b && same_up_to_case s' t'
  | _, _ => false
  end.

(** ** The interactive loop of [main] (main.cpp, lines 232-301)

    Standard input is the list of the lines still to be read, standard output
    the text written so far.  [now_iso] is an oracle: its k-th call returns
    [now k].  The three file names are those of [main]; [env] is the
    operating system the program runs on. *)

Definition LF : string := String (Ascii.ascii_of_nat 10) EmptyString.

Definition booksFile : string := "books.json".
Definition readersFile : string := "readers.json".
Definition loansFile : string := "loans.json".

Record session := mkSession {
  mgr : LibraryManager;
  stdin : list string;
  stdout : string;
  clock_reads : nat;
  disk : files
}.

Definition print (text : string) (s : session) : session :=
  mkSession (mgr s) (stdin s) (stdout s +:+ text) (clock_reads s) (disk s).

(** [std::getline(std::cin, line)] into a fresh string: at the end of the
    input nothing is extracted and the string stays empty. *)
Definition getline (s : session) : string * session :=
  match stdin s with
  | [] => (EmptyString, s)
  | line :: rest =>
      (line, mkSession (mgr s) rest (stdout s) (clock_reads s) (disk s))
  end.

Definition set_mgr (m : LibraryManager) (s : session) : session :=
  mkSession m (stdin s) (stdout s) (clock_reads s) (disk s).

Definition tick (s : session) : session :=
  mkSession (mgr s) (stdin s) (stdout s) (S (clock_reads s)) (disk s).

(** [std::cout << prompt; std::getline(std::cin, line)] *)
Definition ask (prompt : string) (s : session) : string * session :=
  getline (print prompt s).

(** [operator<<] for [int] and for [size_t]. *)
Definition print_int (z : Z) : string := NilZero.string_of_int (Z.to_int z).
Definition print_size (n : nat) : string := NilZero.string_of_uint (Nat.to_uint n).

(** [std::stoi]: white space is skipped, an optional sign is read, then the
    longest run of decimal digits; what follows is ignored.
    [std::invalid_argument] when there is no digit and [std::out_of_range]
    when the value is no [int] are both [Throw]: [main] catches neither. *)
Definition isspace (c : Ascii.ascii) : bool :=
  let n := Ascii.nat_of_ascii c in
  (n =? 32)%nat || ((9 <=? n)%nat && (n <=? 13)%nat).

Definition digit_value (c : Ascii.ascii) : option Z :=
  let n := Ascii.nat_of_ascii c in
  if (48 <=? n)%nat && (n <=? 57)%nat then Some (Z.of_nat (n - 48)) else None.

Fixpoint skip_spaces (s : string) : string :=
  match s with
  | EmptyString => EmptyString
  | String c s' => if isspace c then skip_spaces s' else s
  end.

(** The value of the leading digits of [s], [None] when [s] starts with no
    digit; [seen] tells whether a digit was read already. *)
Fixpoint read_digits (s : string) (acc : Z) (seen : bool) : option Z :=
  match s with
  | EmptyString => if seen then Some acc else None
  | String c s' =>
      match digit_value c with
      | Some d => read_digits s' (10 * acc + d)%Z true
      | None => if seen then Some acc else None
      end
  end.

Definition stoi (s : string) : outcome Z :=
  let s1 := skip_spaces s in
  let '(negative, s2) :=
    match s1 with
    | String c rest =>
        if (Ascii.nat_of_ascii c =? 45)%nat then (true, rest)        (* '-' *)
        else if (Ascii.nat_of_ascii c =? 43)%nat then (false, rest)  (* '+' *)
        else (false, s1)
    | EmptyString => (false, s1)
    end in
  match read_digits s2 0%Z false with
  | None => Throw
  | Some v =>
      let z := if negative then (- v)%Z else v in
      if (INT_MIN <=? z)%Z && (z <=? INT_MAX)%Z then Ok z else Throw
  end.

(** [printMenu] *)
Definition menu : string :=
  LF +:+ "--- Library Menu ---" +:+ LF +:+
  "1. Add book" +:+ LF +:+ "2. Remove book" +:+ LF +:+ "3. Add reader" +:+ LF +:+
  "4. Remove reader" +:+ LF +:+ "5. Issue book" +:+ LF +:+ "6. Return book" +:+ LF +:+
  "7. Search books" +:+ LF +:+ "8. Reports" +:+ LF +:+ "9. Save & Exit" +:+ LF +:+
  "0. Exit without save" +:+ LF +:+ "Choice: ".

(** How one pass through the loop body ends: the loop goes on, it is left by
    command 9 or by command 0, or an uncaught exception ends the process. *)
Inductive after :=
| Again
| SavedExit
| PlainExit
| Terminated.

Definition cmd_add_book (s : session) : after * session :=
  let '(title, s) := ask "Title: " s in
  let '(author, s) := ask "Author: " s in
  let '(isbn, s) := ask "ISBN: " s in
  let '(ok, m) := AddBook (mgr s) (mkBook title author isbn true) in
  (Again, print (if ok then "Book added." +:+ LF else "Book exists." +:+ LF) (set_mgr m s)).

Definition cmd_remove_book (s : session) : after * session :=
  let '(isbn, s) := ask "ISBN to remove: " s in
  let '(ok, m) := RemoveBook (mgr s) isbn in
  (Again, print (if ok then "Removed." +:+ LF
                 else "Remove failed (not found or loaned)." +:+ LF) (set_mgr m s)).

Definition cmd_add_reader (s : session) : after * session :=
  let id := NextReaderId (mgr s) in
  let '(name, s) := ask "Name: " s in
  let '(email, s) := ask "Email: " s in
  let '(_, m) := AddReader (mgr s) (mkReader id name email) in
  (Again, print ("Reader added with Id=" +:+ print_int id +:+ LF) (set_mgr m s)).

Definition cmd_remove_reader (s : session) : after * session :=
  let '(sid, s) := ask "Reader id to remove: " s in
  match stoi sid with
  | Ok id =>
      let '(ok, m) := RemoveReader (mgr s) id in
      (Again, print (if ok then "Removed." +:+ LF else "Not found." +:+ LF) (set_mgr m s))
  | _ => (Terminated, s)
  end.

Definition cmd_issue (now : nat -> string) (s : session) : after * session :=
  let '(sid, s) := ask "ReaderId: " s in
  match stoi sid with
  | Ok rid =>
      let '(isbn, s) := ask "ISBN: " s in
      let '(ok, m) := IssueLoan (mgr s) isbn rid (now (clock_reads s)) in
      let s := if ok then tick s else s in
      (Again, print (if ok then "Issued." +:+ LF else "Issue failed." +:+ LF) (set_mgr m s))
  | _ => (Terminated, s)
  end.

Definition cmd_return (now : nat -> string) (s : session) : after * session :=
  let '(sid, s) := ask "ReaderId: " s in
  match stoi sid with
  | Ok rid =>
      let '(isbn, s) := ask "ISBN: " s in
      let '(ok, m) := ReturnBook (mgr s) isbn rid (now (clock_reads s)) in
      let s := if ok then tick s else s in
      (Again, print (if ok then "Returned." +:+ LF else "Return failed." +:+ LF) (set_mgr m s))
  | _ => (Terminated, s)
  end.

Definition dash : string := " — ".

Definition search_line (b : Book) : string :=
  Title b +:+ dash +:+ Author b +:+ dash +:+ ISBN b +:+ dash +:+
  (if IsAvailable b then "Available" else "Loaned") +:+ LF.

Definition cmd_search (s : session) : after * session :=
  let '(q, s) := ask "Search term: " s in
  let res := SearchBooks (mgr s) q in
  (Again, fold_left (fun s b => print (search_line b) s) res s).

Definition available_line (b : Book) : string :=
  Title b +:+ dash +:+ Author b +:+ dash +:+ ISBN b +:+ LF.

Definition loan_line (l : Loan) : string :=
  "ISBN: " +:+ BookISBN l +:+ " ReaderId: " +:+ print_int (ReaderId l) +:+
  " since " +:+ LoanDate l +:+ LF.

Definition cmd_reports (s : session) : after * session :=
  let s := print ("Available books:" +:+ LF) s in
  let s := fold_left (fun s b => print (available_line b) s) (AvailableBooks (mgr s)) s in
  let s := print ("Active loans:" +:+ LF) s in
  (Again, fold_left (fun s l => print (loan_line l) s) (ActiveLoans (mgr s)) s).

Definition cmd_save_exit (env : os) (s : session) : after * session :=
  let s := mkSession (mgr s) (stdin s) (stdout s) (clock_reads s)
             (Save env (mgr s) (disk s) booksFile readersFile loansFile) in
  (SavedExit, print ("Saved. Exiting." +:+ LF) s).

(** One pass through the body of [while (true)]. *)
Definition iteration (env : os) (now : nat -> string) (s : session)
    : after * session :=
  let '(cmd, s) := getline (print menu s) in
  if String.eqb cmd "1" then cmd_add_book s
  else if String.eqb cmd "2" then cmd_remove_book s
  else if String.eqb cmd "3" then cmd_add_reader s
  else if String.eqb cmd "4" then cmd_remove_reader s
  else if String.eqb cmd "5" then cmd_issue now s
  else if String.eqb cmd "6" then cmd_return now s
  else if String.eqb cmd "7" then cmd_search s
  else if String.eqb cmd "8" then cmd_reports s
  else if String.eqb cmd "9" then cmd_save_exit env s
  else if String.eqb cmd "0" then (PlainExit, print ("Exit without save." +:+ LF) s)
  else (Again, print ("Unknown command." +:+ LF) s).

(** At most [fuel] passes through the loop; [Again] in the result: the loop
    has not been left yet. *)
Fixpoint loop (env : os) (fuel : nat) (now : nat -> string) (s : session)
    : after * session :=
  match fuel with
  | O => (Again, s)
  | S fuel' =>
      match iteration env now s with
      | (Again, s') => loop env fuel' now s'
      | ended => ended
      end
  end.

(** The session after [mgr.Load] and the start-up message; [None] when the
    process ends inside [Load]. *)
Definition startup (env : os) (fs : files) (input : list string) : option session :=
  match Load env empty_manager fs booksFile readersFile loansFile with
  | None => None
  | Some m =>
      Some (mkSession m input
              ("Library system started. Loaded " +:+ print_size (length (Books m)) +:+
               " books, " +:+ print_size (length (Readers m)) +:+ " readers." +:+ LF)
              0 fs)
  end.

Definition main (env : os) (fuel : nat) (now : nat -> string) (fs : files)
    (input : list string) : option (after * session) :=
  match startup env fs input with
  | None => None
  | Some s => Some (loop env fuel now s)
  end.

(** What [main] passes to the operations: a book is added with the default
    IsAvailable, and the Ids come from [NextReaderId] and [stoi], so they are
    values of type [int]. *)
Definition from_menu (o : op) : Prop :=
  match o with
  | OpAddBook b => IsAvailable b = true
  | OpAddReader r => in_int (Id r)
  | OpIssueLoan _ rid _ => in_int rid
  | _ => True
  end.

(** [s'] comes later than [s] in a session: the manager of [s'] is that of
    [s] after some operations passed as [main] passes them. *)
Definition follows (s s' : session) : Prop :=
  exists ops, Forall from_menu ops /\ mgr s' = run ops (mgr s).

(** The files after a pass through the loop that ended as [a]. *)
Definition disk_after (env : os) (a : after) (s s' : session) : Prop :=
  match a with
  | SavedExit => disk s' = Save env (mgr s') (disk s) booksFile readersFile loansFile
  | _ => disk s' = disk s
  end.

(** * Properties *)

(** ** [find_if] *)

Section FindIf.
Context {A : Type} (p : A -> bool).

Lemma find_if_le (v : list A) : find_if p v <= length v.
Proof. induction v as [|x v IH]; simpl; [lia|]. destruct (p x); simpl; lia. Qed.

Lemma find_if_end (v : list A) :
  find_if p v = length v <-> Forall (fun y => p y = false) v.
Proof.
  induction v as [|x v IH]; simpl.
  - split; [constructor | reflexivity].
  - destruct (p x) eqn:Hx; split.
    + discriminate.
    + intros H. inversion H; congruence.
    + intros H. constructor; [assumption|]. apply IH. lia.
    + intros H. inversion H; subst. f_equal. by apply IH.
Qed.

Lemma find_if_first (l1 : list A) (x : A) (l2 : list A) :
  Forall (fun y => p y = false) l1 -> p x = true ->
  find_if p (l1 ++ x :: l2) = length l1.
Proof.
  induction 1 as [|y l1 Hy _ IH]; intros Hx; simpl.
  - by rewrite Hx.
  - rewrite Hy. f_equal. by apply IH.
Qed.

Lemma find_if_found (v : list A) :
  find_if p v <> length v ->
  exists l1 x l2, v = l1 ++ x :: l2 /\ p x = true /\
    Forall (fun y => p y = false) l1 /\ find_if p v = length l1.
Proof.
  induction v as [|x v IH]; simpl; [done|].
  destruct (p x) eqn:Hx.
  - intros _. by exists [], x, v.
  - intros Hne. destruct IH as (l1 & y & l2 & -> & Hy & Hl1 & Hlen); [lia|].
    exists (x :: l1), y, l2. simpl. repeat split; auto.
Qed.
End FindIf.

Lemma isbn_is_true (isbn : string) (b : Book) : isbn_is isbn b = true <-> ISBN b = isbn.
Proof. unfold isbn_is. apply String.eqb_eq. Qed.

Lemma isbn_is_false (isbn : string) (b : Book) : isbn_is isbn b = false <-> ISBN b <> isbn.
Proof. unfold isbn_is. apply String.eqb_neq. Qed.

Lemma id_is_true (id : Z) (r : Reader) : id_is id r = true <-> Id r = id.
Proof. unfold id_is. apply Z.eqb_eq. Qed.

Lemma id_is_false (id : Z) (r : Reader) : id_is id r = false <-> Id r <> id.
Proof. unfold id_is. apply Z.eqb_neq. Qed.

(** The first book with the ISBN is where [find_if] stops. *)
Lemma first_book_position (isbn : string) (v l1 : list Book) (b : Book) (l2 : list Book) :
  first_with (fun x => ISBN x = isbn) v l1 b l2 ->
  find_if (isbn_is isbn) v = length l1 /\ length l1 <> length v /\ v !! length l1 = Some b.
Proof.
  intros (-> & Hb & Hl1). split; [|split].
  - apply find_if_first; [|by apply isbn_is_true].
    eapply Forall_impl; [exact Hl1|]. intros y Hy. by apply isbn_is_false.
  - rewrite length_app. simpl. lia.
  - by apply list_lookup_middle.
Qed.

Lemma no_book_position (isbn : string) (v : list Book) :
  (forall x, x ∈ v -> ISBN x <> isbn) ->
  find_if (isbn_is isbn) v = length v.
Proof.
  intros H. apply find_if_end, Forall_forall. intros x Hx. by apply isbn_is_false, H.
Qed.

Lemma book_position_cases (isbn : string) (v : list Book) :
  (find_if (isbn_is isbn) v = length v /\ forall x, x ∈ v -> ISBN x <> isbn) \/
  (exists l1 b l2, first_with (fun x => ISBN x = isbn) v l1 b l2).
Proof.
  destruct (decide (find_if (isbn_is isbn) v = length v)) as [He|Hne].
  - left. split; [done|]. apply find_if_end in He.
    intros x Hx. apply isbn_is_false. revert x Hx. by apply Forall_forall.
  - right. apply find_if_found in Hne as (l1 & b & l2 & -> & Hb & Hl1 & _).
    exists l1, b, l2. split; [done|]. split; [by apply isbn_is_true|].
    eapply Forall_impl; [exact Hl1|]. intros y Hy. by apply isbn_is_false.
Qed.

Lemma first_reader_position (id : Z) (v l1 : list Reader) (r : Reader) (l2 : list Reader) :
  first_with (fun x => Id x = id) v l1 r l2 ->
  find_if (id_is id) v = length l1 /\ length l1 <> length v.
Proof.
  intros (-> & Hr & Hl1). split.
  - apply find_if_first; [|by apply id_is_true].
    eapply Forall_impl; [exact Hl1|]. intros y Hy. by apply id_is_false.
  - rewrite length_app. simpl. lia.
Qed.

Lemma no_reader_position (id : Z) (v : list Reader) :
  (forall x, x ∈ v -> Id x <> id) ->
  find_if (id_is id) v = length v.
Proof.
  intros H. apply find_if_end, Forall_forall. intros x Hx. by apply id_is_false, H.
Qed.

Lemma reader_position_cases (id : Z) (v : list Reader) :
  (find_if (id_is id) v = length v /\ forall x, x ∈ v -> Id x <> id) \/
  (exists l1 r l2, first_with (fun x => Id x = id) v l1 r l2).
Proof.
  destruct (decide (find_if (id_is id) v = length v)) as [He|Hne].
  - left. split; [done|]. apply find_if_end in He.
    intros x Hx. apply id_is_false. revert x Hx. by apply Forall_forall.
  - right. apply find_if_found in Hne as (l1 & b & l2 & -> & Hb & Hl1 & _).
    exists l1, b, l2. split; [done|]. split; [by apply id_is_true|].
    eapply Forall_impl; [exact Hl1|]. intros y Hy. by apply id_is_false.
Qed.

Lemma alter_middle {A : Type} (f : A -> A) (l1 : list A) (x : A) (l2 : list A) :
  alter f (length l1) (l1 ++ x :: l2) = l1 ++ f x :: l2.
Proof.
  replace (length l1) with (length l1 + 0) by lia. by rewrite alter_app_r.
Qed.

Lemma FindBook_first (m : LibraryManager) (isbn : string) (l1 : list Book) (b : Book)
    (l2 : list Book) :
  first_with (fun x => ISBN x = isbn) (Books m) l1 b l2 ->
  FindBook m isbn = Some (length l1).
Proof.
  intros H. apply first_book_position in H as (Hpos & Hne & _).
  unfold FindBook. rewrite Hpos. by apply Nat.eqb_neq in Hne as ->.
Qed.

Lemma FindBook_none (m : LibraryManager) (isbn : string) :
  (forall x, x ∈ Books m -> ISBN x <> isbn) -> FindBook m isbn = None.
Proof.
  intros H. unfold FindBook. rewrite no_book_position by done. by rewrite Nat.eqb_refl.
Qed.

Lemma FindReader_first (m : LibraryManager) (id : Z) (l1 : list Reader) (r : Reader)
    (l2 : list Reader) :
  first_with (fun x => Id x = id) (Readers m) l1 r l2 ->
  FindReader m id = Some (length l1).
Proof.
  intros H. apply first_reader_position in H as (Hpos & Hne).
  unfold FindReader. rewrite Hpos. by apply Nat.eqb_neq in Hne as ->.
Qed.

Lemma FindReader_none (m : LibraryManager) (id : Z) :
  (forall x, x ∈ Readers m -> Id x <> id) -> FindReader m id = None.
Proof.
  intros H. unfold FindReader. rewrite no_reader_position by done. by rewrite Nat.eqb_refl.
Qed.

(** ** AddBook *)

Lemma AddBook_duplicate (m : LibraryManager) (b : Book) :
  (exists x, x ∈ Books m /\ ISBN x = ISBN b) -> AddBook m b = (false, m).
Proof.
  intros (x & Hx & Hisbn). unfold AddBook.
  destruct (book_position_cases (ISBN b) (Books m)) as [[_ Hno]|(l1 & y & l2 & Hf)].
  - by destruct (Hno x Hx).
  - by rewrite (FindBook_first _ _ _ _ _ Hf).
Qed.

Lemma AddBook_fresh (m : LibraryManager) (b : Book) :
  (forall x, x ∈ Books m -> ISBN x <> ISBN b) ->
  AddBook m b = (true, mkLibraryManager (Books m ++ [b]) (Readers m) (Loans m)).
Proof. intros H. unfold AddBook. by rewrite FindBook_none. Qed.

(** ** RemoveBook *)

Lemma RemoveBook_missing (m : LibraryManager) (isbn : string) :
  (forall x, x ∈ Books m -> ISBN x <> isbn) -> RemoveBook m isbn = (false, m).
Proof.
  intros H. unfold RemoveBook. rewrite no_book_position by done. by rewrite Nat.eqb_refl.
Qed.

Lemma RemoveBook_first (m : LibraryManager) (isbn : string) (l1 : list Book) (b : Book)
    (l2 : list Book) :
  first_with (fun x => ISBN x = isbn) (Books m) l1 b l2 ->
  RemoveBook m isbn =
    if IsAvailable b
    then (true, mkLibraryManager (l1 ++ l2) (Readers m) (Loans m))
    else (false, m).
Proof.
  intros Hf. destruct (first_book_position _ _ _ _ _ Hf) as (Hpos & Hne & Hlook).
  unfold RemoveBook. rewrite Hpos, Hlook. apply Nat.eqb_neq in Hne as ->.
  destruct Hf as (Hbooks & _). destruct (IsAvailable b); simpl; [|done].
  by rewrite Hbooks, delete_middle.
Qed.

(** ** IssueLoan *)

Lemma IssueLoan_first (m : LibraryManager) (isbn : string) (rid : Z) (now : string)
    (l1 : list Book) (b : Book) (l2 : list Book) :
  first_with (fun x => ISBN x = isbn) (Books m) l1 b l2 ->
  IssueLoan m isbn rid now =
    if IsAvailable b
    then match FindReader m rid with
         | None => (false, m)
         | Some _ => (true, mkLibraryManager (l1 ++ MarkAsLoaned b :: l2) (Readers m)
                              (Loans m ++ [mkLoan isbn rid now None]))
         end
    else (false, m).
Proof.
  intros Hf. destruct (first_book_position _ _ _ _ _ Hf) as (_ & _ & Hlook).
  unfold IssueLoan. rewrite (FindBook_first _ _ _ _ _ Hf), Hlook.
  destruct Hf as (Hbooks & _). destruct (IsAvailable b); simpl; [|done].
  destruct (FindReader m rid); [|done]. by rewrite Hbooks, alter_middle.
Qed.

Lemma IssueLoan_missing (m : LibraryManager) (isbn : string) (rid : Z) (now : string) :
  (forall x, x ∈ Books m -> ISBN x <> isbn) -> IssueLoan m isbn rid now = (false, m).
Proof. intros H. unfold IssueLoan. by rewrite FindBook_none. Qed.

(** ** RemoveReader *)

Lemma erase_active_loans_filter (id : Z) (loans : list Loan) :
  erase_active_loans id loans =
  filter (fun l => ~ (ReaderId l = id /\ ReturnDate l = None)) loans.
Proof.
  induction loans as [|l rest IH]; [done|]. simpl. rewrite filter_cons, <- IH.
  unfold no_ReturnDate. destruct (Z.eqb_spec (ReaderId l) id) as [He|Hne]; simpl.
  - destruct (ReturnDate l) eqn:Hr.
    + rewrite decide_True; [done|]. intros [_ ?]. congruence.
    + rewrite decide_False; [done|]. intros H. apply H. by split.
  - rewrite decide_True; [done|]. by intros [? _].
Qed.

Lemma RemoveReader_missing (m : LibraryManager) (id : Z) :
  (forall x, x ∈ Readers m -> Id x <> id) -> RemoveReader m id = (false, m).
Proof.
  intros H. unfold RemoveReader. rewrite no_reader_position by done.
  by rewrite Nat.eqb_refl.
Qed.

Lemma RemoveReader_first (m : LibraryManager) (id : Z) (l1 : list Reader) (r : Reader)
    (l2 : list Reader) :
  first_with (fun x => Id x = id) (Readers m) l1 r l2 ->
  RemoveReader m id =
    (true, mkLibraryManager (Books m) (l1 ++ l2) (erase_active_loans id (Loans m))).
Proof.
  intros Hf. destruct (first_reader_position _ _ _ _ _ Hf) as (Hpos & Hne).
  unfold RemoveReader. rewrite Hpos. apply Nat.eqb_neq in Hne as ->.
  destruct Hf as (-> & _). by rewrite delete_middle.
Qed.

(** * The claims about single operations *)

(** C5, as amended: AddBook fails and leaves Books, Readers and Loans
    unchanged whenever a book with the same ISBN already exists; otherwise it
    succeeds and appends the book exactly as it was passed, so the appended
    entry has IsAvailable = true when the passed book has (the default of a
    Book) and false when the caller cleared it. *)
Theorem AddBook_appends_as_given (m : LibraryManager) (b : Book) :
  ((exists x, x ∈ Books m /\ ISBN x = ISBN b) -> AddBook m b = (false, m)) /\
  ((forall x, x ∈ Books m -> ISBN x <> ISBN b) ->
     AddBook m b = (true, mkLibraryManager (Books m ++ [b]) (Readers m) (Loans m)) /\
     last (Books (snd (AddBook m b))) = Some b /\
     (IsAvailable b = true ->
      forall b', last (Books (snd (AddBook m b))) = Some b' -> IsAvailable b' = true)).
Proof.
  split; [apply AddBook_duplicate|].
  intros H. rewrite (AddBook_fresh _ _ H). simpl. rewrite last_snoc.
  split; [done|]. split; [done|]. intros Hb b' [= <-]. exact Hb.
Qed.

(** C5 as stated fails: a book passed with IsAvailable = false is appended
    with IsAvailable = false. *)
Lemma AddBook_keeps_cleared_flag :
  fst (AddBook empty_manager dune_loaned) = true /\
  exists b', last (Books (snd (AddBook empty_manager dune_loaned))) = Some b' /\
             IsAvailable b' = false.
Proof. split; [reflexivity|]. exists dune_loaned. by split. Qed.

(** C6: IssueLoan fails exactly when no book has the ISBN, or the (first)
    book with the ISBN has IsAvailable = false, whatever readerId is, or no
    reader has the Id; a failed call changes nothing; a successful call
    appends the one loan (isbn, readerId, now, no return date), sets that
    book's IsAvailable to false and leaves everything else as it was. *)
Theorem IssueLoan_spec (m : LibraryManager) (isbn : string) (readerId : Z) (now : string) :
  let res := IssueLoan m isbn readerId now in
  (fst res = false <->
     (forall x, x ∈ Books m -> ISBN x <> isbn) \/
     (exists l1 b l2, first_with (fun x => ISBN x = isbn) (Books m) l1 b l2 /\
                      IsAvailable b = false) \/
     (forall r, r ∈ Readers m -> Id r <> readerId)) /\
  (fst res = false -> snd res = m) /\
  (fst res = true ->
     exists l1 b l2, first_with (fun x => ISBN x = isbn) (Books m) l1 b l2 /\
       Books (snd res) = l1 ++ mkBook (Title b) (Author b) (ISBN b) false :: l2 /\
       Readers (snd res) = Readers m /\
       Loans (snd res) = Loans m ++ [mkLoan isbn readerId now None]).
Proof.
  simpl.
  destruct (book_position_cases isbn (Books m)) as [[_ Hno]|(l1 & b & l2 & Hf)].
  - rewrite (IssueLoan_missing _ _ _ _ Hno). simpl. split; [|split]; try done.
    split; [by left | done].
  - rewrite (IssueLoan_first _ _ _ _ _ _ _ Hf).
    assert (Hin : b ∈ Books m /\ ISBN b = isbn) by
      (destruct Hf as (Hbooks & Hb & _); split; [|done];
       rewrite Hbooks; apply elem_of_app; right; by left).
    destruct Hin as [Hin Hisbn].
    assert (Hsame : forall l1' b' l2',
               first_with (fun x => ISBN x = isbn) (Books m) l1' b' l2' -> b' = b).
    { intros l1' b' l2' Hf'.
      destruct (first_book_position _ _ _ _ _ Hf) as (Hp & _ & Hl).
      destruct (first_book_position _ _ _ _ _ Hf') as (Hp' & _ & Hl').
      rewrite Hp in Hp'. rewrite <- Hp' in Hl'. congruence. }
    destruct (IsAvailable b) eqn:Hav.
    + destruct (reader_position_cases readerId (Readers m))
        as [[_ Hnor]|(r1 & r & r2 & Hr)].
      * rewrite (FindReader_none _ _ Hnor). simpl. split; [|split]; try done.
        split; [by right; right | done].
      * rewrite (FindReader_first _ _ _ _ _ Hr). simpl. split; [|split]; try done.
        -- split; [done|]. intros [Hall|[(l1' & b' & l2' & Hf' & Hb')|Hall]].
           ++ by destruct (Hall b Hin).
           ++ rewrite (Hsame _ _ _ Hf') in Hb'. congruence.
           ++ exfalso. destruct Hr as (Hrs & Hid & _). apply (Hall r); [|done].
              rewrite Hrs. apply elem_of_app. right. by left.
        -- intros _. exists l1, b, l2. split; [exact Hf | done].
    + simpl. split; [|split]; try done.
      split; [|done]. intros _. right. left. by exists l1, b, l2.
Qed.

(** C7: RemoveReader fails and changes nothing when no reader has the Id;
    otherwise it succeeds, removes the (first) reader with that Id, deletes
    every loan of that ReaderId whose ReturnDate is absent and keeps every
    other loan, in particular each loan of that ReaderId whose ReturnDate is
    set, in place and in order. *)
Theorem RemoveReader_spec (m : LibraryManager) (id : Z) :
  let res := RemoveReader m id in
  ((forall r, r ∈ Readers m -> Id r <> id) -> res = (false, m)) /\
  ((exists r, r ∈ Readers m /\ Id r = id) ->
     exists l1 r l2, first_with (fun x => Id x = id) (Readers m) l1 r l2 /\
       fst res = true /\
       Books (snd res) = Books m /\
       Readers (snd res) = l1 ++ l2 /\
       Loans (snd res) =
         filter (fun l => ~ (ReaderId l = id /\ ReturnDate l = None)) (Loans m) /\
       (forall l, l ∈ Loans (snd res) -> ~ (ReaderId l = id /\ ReturnDate l = None)) /\
       (forall l, l ∈ Loans m -> ReturnDate l <> None -> l ∈ Loans (snd res))).
Proof.
  simpl. split; [apply RemoveReader_missing|].
  intros (x & Hx & Hid).
  destruct (reader_position_cases id (Readers m)) as [[_ Hno]|(l1 & r & l2 & Hf)].
  { by destruct (Hno x Hx). }
  exists l1, r, l2. split; [exact Hf|].
  rewrite (RemoveReader_first _ _ _ _ _ Hf). simpl.
  rewrite erase_active_loans_filter. repeat split; try done.
  - intros l Hl. by apply list_elem_of_filter in Hl as [? _].
  - intros l Hl Hret. apply list_elem_of_filter. split; [|done]. by intros [_ ?].
Qed.

(** C8: RemoveBook fails, changing nothing, whenever no book has the ISBN or
    the (first) book with the ISBN has IsAvailable = false; otherwise it
    succeeds, removes exactly that one entry from Books and leaves Readers and
    Loans, the loan history of the ISBN included, unchanged. *)
Theorem RemoveBook_spec (m : LibraryManager) (isbn : string) :
  let res := RemoveBook m isbn in
  ((forall x, x ∈ Books m -> ISBN x <> isbn) -> res = (false, m)) /\
  ((exists x, x ∈ Books m /\ ISBN x = isbn) ->
     exists l1 b l2, first_with (fun x => ISBN x = isbn) (Books m) l1 b l2 /\
       (IsAvailable b = false -> res = (false, m)) /\
       (IsAvailable b = true ->
          fst res = true /\
          Books (snd res) = l1 ++ l2 /\
          S (length (Books (snd res))) = length (Books m) /\
          Readers (snd res) = Readers m /\
          Loans (snd res) = Loans m)).
Proof.
  simpl. split; [apply RemoveBook_missing|].
  intros (x & Hx & Hisbn).
  destruct (book_position_cases isbn (Books m)) as [[_ Hno]|(l1 & b & l2 & Hf)].
  { by destruct (Hno x Hx). }
  exists l1, b, l2. split; [exact Hf|].
  rewrite (RemoveBook_first _ _ _ _ _ Hf). destruct Hf as (Hbooks & _).
  split; intros ->; [done|]. simpl. repeat split; try done.
  rewrite Hbooks, !length_app. simpl. lia.
Qed.

(** The scenario of the specification: Dune is lent to reader 1, cannot be
    removed while on loan, and can be removed once returned. *)
Example scenario_of_the_specification :
  let m1 := snd (AddBook empty_manager dune) in
  let m2 := snd (AddReader m1 (mkReader (NextReaderId m1) "Ann" "ann@example.org")) in
  let r3 := IssueLoan m2 "111" 1 "2024-01-01T10:00:00Z" in
  let r4 := RemoveBook (snd r3) "111" in
  let r5 := ReturnBook (snd r4) "111" 1 "2024-01-08T10:00:00Z" in
  let r6 := RemoveBook (snd r5) "111" in
  NextReaderId m1 = 1%Z /\
  fst r3 = true /\ Books (snd r3) = [dune_loaned] /\
  fst r4 = false /\
  fst r5 = true /\ Books (snd r5) = [dune] /\
  fst r6 = true /\ Books (snd r6) = [].
Proof. vm_compute. repeat split. Qed.

(** ** ReturnBook *)

Lemma active_loan_of_true (isbn : string) (rid : Z) (l : Loan) :
  active_loan_of isbn rid l = true <->
  BookISBN l = isbn /\ ReaderId l = rid /\ ReturnDate l = None.
Proof.
  unfold active_loan_of, no_ReturnDate.
  rewrite !andb_true_iff, String.eqb_eq, Z.eqb_eq.
  destruct (ReturnDate l); intuition congruence.
Qed.

Lemma ReturnBook_at (m : LibraryManager) (isbn : string) (rid : Z) (now : string)
    (k1 : list Loan) (l : Loan) (k2 : list Loan) :
  Loans m = k1 ++ l :: k2 ->
  active_loan_of isbn rid l = true ->
  Forall (fun y => active_loan_of isbn rid y = false) k1 ->
  ReturnBook m isbn rid now =
    (true, mkLibraryManager
             match FindBook m isbn with
             | Some b => alter MarkAsAvailable b (Books m)
             | None => Books m
             end
             (Readers m) (k1 ++ set_ReturnDate now l :: k2)).
Proof.
  intros Hloans Hl Hk1. unfold ReturnBook.
  rewrite Hloans, (find_if_first _ _ _ _ Hk1 Hl), alter_middle.
  replace (length k1 =? length (k1 ++ l :: k2))%nat with false; [done|].
  symmetry. apply Nat.eqb_neq. rewrite length_app. simpl. lia.
Qed.

Lemma returned_loans_app (isbn : string) (k1 k2 : list Loan) :
  returned_loans isbn (k1 ++ k2) = returned_loans isbn k1 ++ returned_loans isbn k2.
Proof. apply filter_app. Qed.

Lemma returned_loans_active (isbn : string) (l : Loan) (k : list Loan) :
  ReturnDate l = None -> returned_loans isbn (l :: k) = returned_loans isbn k.
Proof. intros H. apply filter_cons_False. intros [_ ?]. congruence. Qed.

Lemma returned_loans_closed (isbn now : string) (l : Loan) (k : list Loan) :
  BookISBN l = isbn ->
  returned_loans isbn (set_ReturnDate now l :: k) =
  set_ReturnDate now l :: returned_loans isbn k.
Proof. intros H. apply filter_cons_True. by split. Qed.

(** C4, as amended: in every state in which IssueLoan(isbn, readerId)
    succeeds, an immediate ReturnBook(isbn, readerId) succeeds, restores that
    book's IsAvailable to true (Books and Readers are as before the loan), and
    leaves one loan record more than before, the number of records of that
    ISBN with ReturnDate set having grown by exactly one; when the state held
    no loan record of the ISBN before, exactly one record of that ISBN is left
    and its ReturnDate is set. *)
Theorem IssueLoan_then_ReturnBook (m : LibraryManager) (isbn : string) (readerId : Z)
    (t1 t2 : string) :
  fst (IssueLoan m isbn readerId t1) = true ->
  let res := ReturnBook (snd (IssueLoan m isbn readerId t1)) isbn readerId t2 in
  fst res = true /\
  Books (snd res) = Books m /\
  (exists i b, FindBook (snd res) isbn = Some i /\ Books (snd res) !! i = Some b /\
               IsAvailable b = true) /\
  Readers (snd res) = Readers m /\
  length (Loans (snd res)) = S (length (Loans m)) /\
  length (returned_loans isbn (Loans (snd res))) =
    S (length (returned_loans isbn (Loans m))) /\
  ((forall l, l ∈ Loans m -> BookISBN l <> isbn) ->
   filter (fun l => BookISBN l = isbn) (Loans (snd res)) =
     [mkLoan isbn readerId t1 (Some t2)]).
Proof.
  intros Hok.
  destruct (book_position_cases isbn (Books m)) as [[_ Hno]|(l1 & b & l2 & Hf)].
  { by rewrite (IssueLoan_missing _ _ _ _ Hno) in Hok. }
  revert Hok. rewrite (IssueLoan_first _ _ _ _ _ _ _ Hf).
  destruct (IsAvailable b) eqn:Hav; [|done].
  destruct (FindReader m readerId); [|done]. intros _. simpl.
  set (ln := mkLoan isbn readerId t1 None).
  set (m1 := mkLibraryManager _ _ _).
  assert (Hln : active_loan_of isbn readerId ln = true) by by apply active_loan_of_true.
  assert (Hf1 : first_with (fun x => ISBN x = isbn) (Books m1) l1 (MarkAsLoaned b) l2).
  { destruct Hf as (_ & Hb & Hl1). by repeat split. }
  assert (Hback : alter MarkAsAvailable (length l1) (Books m1) = Books m).
  { simpl. rewrite alter_middle. destruct Hf as (-> & _). destruct b; simpl in *.
    by subst. }
  assert (Hfound : find_if (active_loan_of isbn readerId) (Loans m1) <> length (Loans m1)).
  { intros He. apply find_if_end in He. rewrite Forall_forall in He.
    rewrite He in Hln; [done|]. simpl. apply elem_of_app. right. by left. }
  apply find_if_found in Hfound as (k1 & l & k2 & Hloans & Hl & Hk1 & _).
  rewrite (ReturnBook_at _ _ _ _ _ _ _ Hloans Hl Hk1).
  rewrite (FindBook_first _ _ _ _ _ Hf1), Hback. simpl.
  apply active_loan_of_true in Hl as (Hisbn & Hrid & Hret).
  split; [done|]. split; [done|]. split.
  { exists (length l1), b. split; [|split; [|done]].
    - unfold FindBook. simpl.
      destruct (first_book_position _ _ _ _ _ Hf) as (-> & Hne & _).
      by apply Nat.eqb_neq in Hne as ->.
    - by destruct (first_book_position _ _ _ _ _ Hf) as (_ & _ & ?). }
  split; [done|].
  assert (Hlen : length (k1 ++ l :: k2) = S (length (Loans m))).
  { rewrite <- Hloans. simpl. rewrite length_app. simpl. lia. }
  assert (Hcount : length (returned_loans isbn (k1 ++ l :: k2)) =
                   length (returned_loans isbn (Loans m))).
  { rewrite <- Hloans. simpl. rewrite returned_loans_app, length_app.
    rewrite returned_loans_active by done. simpl. lia. }
  split; [|split].
  - rewrite <- Hlen, !length_app. simpl. lia.
  - rewrite <- Hcount, !returned_loans_app, !length_app.
    rewrite returned_loans_closed by done. rewrite returned_loans_active by done.
    simpl. lia.
  - intros Hnone.
    assert (Hall : Forall (fun y => active_loan_of isbn readerId y = false) (Loans m)).
    { apply Forall_forall. intros y Hy.
      destruct (active_loan_of isbn readerId y) eqn:E; [|done].
      apply active_loan_of_true in E as (E & _). by destruct (Hnone y Hy). }
    assert (Hk : k1 = Loans m /\ l = ln /\ k2 = []).
    { pose proof (find_if_first (active_loan_of isbn readerId) _ ln [] Hall Hln) as Hp1.
      pose proof (find_if_first (active_loan_of isbn readerId) _ l k2 Hk1
                    ltac:(by apply active_loan_of_true)) as Hp2.
      rewrite <- Hloans in Hp2. simpl in Hp2. rewrite Hp1 in Hp2.
      simpl in Hloans. apply app_inj_1 in Hloans as [-> Htl]; [|done].
      by injection Htl as -> <-. }
    destruct Hk as (-> & -> & ->).
    rewrite filter_app, filter_cons_True, filter_nil by done.
    replace (filter _ (Loans m)) with (@nil Loan); [done|].
    symmetry. clear -Hnone. induction (Loans m) as [|y k IH]; [done|].
    rewrite filter_cons_False; [apply IH|].
    + intros z Hz. apply Hnone. by right.
    + apply Hnone. by left.
Qed.

Lemma IssueLoan_then_ReturnBook_witness :
  let m := mkLibraryManager [dune] [ann] [] in
  let t1 := "2024-01-01T10:00:00Z" in
  let t2 := "2024-01-08T10:00:00Z" in
  fst (IssueLoan m "111" 1 t1) = true /\
  fst (ReturnBook (snd (IssueLoan m "111" 1 t1)) "111" 1 t2) = true /\
  Books (snd (ReturnBook (snd (IssueLoan m "111" 1 t1)) "111" 1 t2)) = [dune] /\
  length (returned_loans "111"
            (Loans (snd (ReturnBook (snd (IssueLoan m "111" 1 t1)) "111" 1 t2)))) = 1.
Proof.
  intros m t1 t2.
  assert (Hok : fst (IssueLoan m "111" 1 t1) = true) by reflexivity.
  destruct (IssueLoan_then_ReturnBook m "111" 1 t1 t2 Hok)
    as (Hret & Hbooks & _ & _ & _ & Hcount & _).
  repeat split; assumption.
Defined.

(** C4 as stated fails: after one complete loan of the book, a second
    IssueLoan followed by ReturnBook leaves two loan records of the ISBN, both
    with ReturnDate set. *)
Lemma second_round_leaves_two_returned_loans :
  let m := manager_with_history in
  let t3 := "2024-02-01T10:00:00Z" in
  let t4 := "2024-02-08T10:00:00Z" in
  reachable m /\
  fst (IssueLoan m "111" 1 t3) = true /\
  fst (ReturnBook (snd (IssueLoan m "111" 1 t3)) "111" 1 t4) = true /\
  filter (fun l => BookISBN l = "111")
    (Loans (snd (ReturnBook (snd (IssueLoan m "111" 1 t3)) "111" 1 t4))) =
    [mkLoan "111" 1 "2024-01-01T10:00:00Z" (Some "2024-01-08T10:00:00Z");
     mkLoan "111" 1 t3 (Some t4)] /\
  length (returned_loans "111"
            (Loans (snd (ReturnBook (snd (IssueLoan m "111" 1 t3)) "111" 1 t4)))) = 2.
Proof.
  intros m t3 t4. split; [by exists ops_one_round|]. by vm_compute.
Qed.

(** * The availability invariant *)

(** C1: the invariant is broken by RemoveReader. After AddBook, AddReader and
    IssueLoan, removing the borrower deletes the active loan but leaves the
    book's IsAvailable at false: the state is reachable, the book has no
    active loan, and its flag is not the negation of that. *)
Theorem RemoveReader_leaves_book_unavailable :
  let m := run ops_remove_borrower empty_manager in
  reachable m /\
  Books m = [dune_loaned] /\ Readers m = [] /\ Loans m = [] /\
  has_active_loan m "111" = false /\
  ~ availability_in_sync m.
Proof.
  intros m. split; [by exists ops_remove_borrower|].
  repeat split; try reflexivity.
  intros H. specialize (H dune_loaned). 
  assert (Hin : dune_loaned ∈ Books m) by (vm_compute; by left).
  apply H in Hin. vm_compute in Hin. discriminate.
Qed.

(** * Load *)

(** A parse error in the first file read does leave the three collections
    empty. *)
Lemma Load_books_unparsable (env : os) (m : LibraryManager) (fs : files)
    (booksFile readersFile loansFile : string) :
  open_read env fs booksFile = Some Unparsable ->
  Load env m fs booksFile readersFile loansFile = Some empty_manager.
Proof. intros H. unfold Load, read_into. by rewrite H. Qed.

(** C2: Load leaves a partially populated state. With a valid books file and
    a readers file that does not parse, Load returns with the books of the
    first file in Books. *)
Theorem Load_keeps_books_read_before_parse_error :
  fs_bad_readers !! "readers.json" = Some Unparsable /\
  Load plain_os empty_manager fs_bad_readers "books.json" "readers.json" "loans.json" =
    Some (mkLibraryManager [dune] [] []).
Proof. split; by vm_compute. Qed.

(** * Save followed by Load *)

Lemma wrap_int_in_range (z : Z) : in_int z -> wrap_int z = z.
Proof.
  unfold in_int, INT_MIN, INT_MAX, wrap_int. intros H.
  rewrite Z.mod_small by lia. lia.
Qed.

Lemma Book_json_roundtrip (b : Book) : Book_from_json (Book_to_json b) = Ok b.
Proof. by destruct b. Qed.

Lemma Reader_json_roundtrip (r : Reader) :
  in_int (Id r) -> Reader_from_json (Reader_to_json r) = Ok r.
Proof.
  intros H. destruct r as [id name email]. unfold Reader_from_json, Reader_to_json.
  simpl in *. by rewrite wrap_int_in_range.
Qed.

Lemma Loan_json_roundtrip (l : Loan) :
  in_int (ReaderId l) -> Loan_from_json (Loan_to_json l) = Ok l.
Proof.
  intros H. destruct l as [isbn rid date ret]. unfold Loan_from_json, Loan_to_json.
  simpl in *. rewrite wrap_int_in_range by done. by destruct ret.
Qed.

Lemma push_all_roundtrip {A : Type} (to_json : A -> json) (from_json : json -> outcome A)
    (v acc : list A) :
  Forall (fun x => from_json (to_json x) = Ok x) v ->
  push_all from_json (map to_json v) acc = (acc ++ v, Ok tt).
Proof.
  intros H. revert acc. induction H as [|x v Hx _ IH]; intros acc; simpl.
  - by rewrite app_nil_r.
  - rewrite Hx, IH. by rewrite <- app_assoc.
Qed.

(** An absent ReturnDate is written as the member "ReturnDate": null. *)
Lemma Loan_to_json_null (l : Loan) :
  ReturnDate l = None ->
  exists members, Loan_to_json l = JObject members /\
                  json_find "ReturnDate" members = Some JNull.
Proof. intros H. unfold Loan_to_json. rewrite H. by eexists. Qed.

Lemma open_read_written (env : os) (fs : files) (path : string) (j : json) :
  can_write env (file_of env path) = true -> can_read env (file_of env path) = true ->
  open_read env (write_file env path j fs) path = Some (Document j).
Proof.
  intros Hw Hr. unfold open_read, write_file. by rewrite Hw, Hr, lookup_insert_eq.
Qed.

Lemma open_read_other (env : os) (fs : files) (path other : string) (j : json) :
  file_of env path <> file_of env other ->
  open_read env (write_file env other j fs) path = open_read env fs path.
Proof.
  intros Hne. unfold open_read, write_file.
  destruct (can_write env (file_of env other)); [|done].
  by rewrite lookup_insert_ne.
Qed.

Lemma Load_of_Save (env : os) (m0 m : LibraryManager) (fs : files)
    (books readers loans : string) :
  destinations_usable env books readers loans ->
  ints_in_range m ->
  Load env m0 (Save env m fs books readers loans) books readers loans = Some m.
Proof.
  intros (Hbr & Hbl & Hrl & Hrw) [Hreaders Hloans].
  apply Forall_cons in Hrw as [[Hwb Hrb] Hrw].
  apply Forall_cons in Hrw as [[Hwr Hrr] Hrw].
  apply Forall_cons in Hrw as [[Hwl Hrl'] _].
  unfold Load, read_into, Save.
  rewrite !(open_read_other env _ books) by done.
  rewrite open_read_written by done. simpl.
  rewrite push_all_roundtrip
    by (apply Forall_forall; intros; apply Book_json_roundtrip).
  rewrite (open_read_other env _ readers) by done.
  rewrite open_read_written by done. simpl.
  rewrite push_all_roundtrip
    by (eapply Forall_impl; [exact Hreaders | apply Reader_json_roundtrip]).
  rewrite open_read_written by done. simpl.
  rewrite push_all_roundtrip
    by (eapply Forall_impl; [exact Hloans | apply Loan_json_roundtrip]).
  simpl. by destruct m.
Qed.

(** C9, as amended: when the three destinations name three different files
    and each of them can be written and read back, Save followed by Load on
    them gives back the manager that was saved: the same books, readers and
    loans with the same field values, each loan as active or returned as it
    was; and a loan without ReturnDate is persisted with an explicit member
    "ReturnDate": null, not with the key left out. *)
Theorem Save_then_Load (env : os) (m0 m : LibraryManager) (fs : files)
    (booksFile readersFile loansFile : string) :
  destinations_usable env booksFile readersFile loansFile ->
  ints_in_range m ->
  Load env m0 (Save env m fs booksFile readersFile loansFile)
    booksFile readersFile loansFile = Some m /\
  open_read env (Save env m fs booksFile readersFile loansFile) loansFile =
    Some (Document (JArray (map Loan_to_json (Loans m)))) /\
  (forall l, l ∈ Loans m -> ReturnDate l = None ->
     exists members, Loan_to_json l = JObject members /\
                     json_find "ReturnDate" members = Some JNull).
Proof.
  intros Husable Hints. split; [by apply Load_of_Save|]. split.
  - destruct Husable as (_ & _ & _ & Hrw).
    apply Forall_cons in Hrw as [_ Hrw]. apply Forall_cons in Hrw as [_ Hrw].
    apply Forall_cons in Hrw as [[Hw Hr] _].
    unfold Save. by apply open_read_written.
  - intros l _. apply Loan_to_json_null.
Qed.

Lemma Save_then_Load_witness :
  Load plain_os empty_manager
    (Save plain_os manager_with_two_loans ∅ "books.json" "readers.json" "loans.json")
    "books.json" "readers.json" "loans.json" = Some manager_with_two_loans /\
  exists members,
    Loan_to_json (mkLoan "111" 1 "2024-02-01T10:00:00Z" None) = JObject members /\
    json_find "ReturnDate" members = Some JNull.
Proof.
  assert (Husable : destinations_usable plain_os "books.json" "readers.json" "loans.json").
  { repeat split; try discriminate. repeat constructor. }
  assert (Hints : ints_in_range manager_with_two_loans).
  { split.
    - change (Readers manager_with_two_loans) with [ann].
      constructor; [|constructor]. unfold in_int, INT_MIN, INT_MAX. simpl. lia.
    - change (Loans manager_with_two_loans)
        with [mkLoan "111" 1 "2024-01-01T10:00:00Z" (Some "2024-01-08T10:00:00Z");
              mkLoan "111" 1 "2024-02-01T10:00:00Z" None].
      constructor; [|constructor; [|constructor]];
        unfold in_int, INT_MIN, INT_MAX; simpl; lia. }
  destruct (Save_then_Load plain_os empty_manager manager_with_two_loans ∅
              "books.json" "readers.json" "loans.json" Husable Hints)
    as (Hload & _ & Hnull).
  split; [exact Hload|].
  apply Hnull; [|reflexivity].
  change (Loans manager_with_two_loans)
    with [mkLoan "111" 1 "2024-01-01T10:00:00Z" (Some "2024-01-08T10:00:00Z");
          mkLoan "111" 1 "2024-02-01T10:00:00Z" None].
  right. left.
Defined.

(** C9 as stated fails: Save never tests its streams, so on a system where
    books.json cannot be written the file is not written and nothing tells;
    Load then finds no book, while the readers and the loans come back. *)
Lemma Save_then_Load_loses_unwritten_books :
  let m := manager_with_two_loans in
  let fs := Save books_read_only m ∅ "books.json" "readers.json" "loans.json" in
  Books m = [dune_loaned] /\
  fs !! "books.json" = None /\
  Load books_read_only empty_manager fs "books.json" "readers.json" "loans.json" =
    Some (mkLibraryManager [] (Readers m) (Loans m)) /\
  Load books_read_only empty_manager fs "books.json" "readers.json" "loans.json" <> Some m.
Proof. repeat split; try by vm_compute. Qed.

(** * Duplicate ISBNs *)


Lemma NoDup_ISBN_delete (i : nat) (v : list Book) :
  NoDup (ISBN <$> v) -> NoDup (ISBN <$> delete i v).
Proof.
  intros H. rewrite list_fmap_delete. exact (sublist_NoDup _ _ H (sublist_delete _ _)).
Qed.






Lemma ReturnBook_first (m : LibraryManager) (isbn : string) (rid : Z) (now : string)
    (l1 : list Book) (b : Book) (l2 : list Book) :
  first_with (fun x => ISBN x = isbn) (Books m) l1 b l2 ->
  fst (ReturnBook m isbn rid now) = true ->
  Books (snd (ReturnBook m isbn rid now)) = l1 ++ MarkAsAvailable b :: l2.
Proof.
  intros Hf. unfold ReturnBook. destruct (_ =? _)%nat; [done|]. simpl. intros _.
  rewrite (FindBook_first _ _ _ _ _ Hf). destruct Hf as (-> & _). apply alter_middle.
Qed.




(** On the loaded duplicates: the loan and the removal of ISBN "111" act on
    the first entry, the second one stays untouched. *)
Example operations_on_duplicates :
  let m := manager_with_duplicates in
  let r1 := IssueLoan m "111" 1 "2024-01-01T10:00:00Z" in
  let r2 := ReturnBook (snd r1) "111" 1 "2024-01-08T10:00:00Z" in
  let r3 := RemoveBook (snd r2) "111" in
  fst r1 = true /\ Books (snd r1) = [dune_loaned; messiah] /\
  fst r2 = true /\ Books (snd r2) = [dune; messiah] /\
  fst r3 = true /\ Books (snd r3) = [messiah].
Proof. by vm_compute. Qed.

(** * Reader Ids *)

Lemma fold_max_step_ge (v : list Reader) (a : Z) :
  (a <= fold_left max_step v a)%Z /\
  Forall (fun r => (Id r <= fold_left max_step v a)%Z) v.
Proof.
  revert a. induction v as [|r v IH]; intros a; simpl.
  - split; [lia | constructor].
  - destruct (IH (max_step a r)) as [Hge Hall].
    assert (Hstep : (a <= max_step a r /\ Id r <= max_step a r)%Z).
    { unfold max_step. destruct (Z.gtb_spec (Id r) a); lia. }
    split; [lia|]. constructor; [lia | done].
Qed.

Lemma fold_max_step_le (v : list Reader) (a n : Z) :
  (a <= n)%Z -> Forall (fun r => (Id r <= n)%Z) v ->
  (fold_left max_step v a <= n)%Z.
Proof.
  intros Ha H. revert a Ha. induction H as [|r v Hr _ IH]; intros a Ha; simpl; [done|].
  apply IH. unfold max_step. destruct (Z.gtb_spec (Id r) a); lia.
Qed.

(** Without overflow NextReaderId is above every Id present, and it is 1 for
    an empty reader collection. *)
Lemma NextReaderId_above (m : LibraryManager) (n : Z) :
  (0 <= n < INT_MAX)%Z -> Forall (fun r => (Id r <= n)%Z) (Readers m) ->
  (1 <= NextReaderId m <= n + 1)%Z /\
  Forall (fun r => (Id r < NextReaderId m)%Z) (Readers m).
Proof.
  intros Hn Hall. unfold NextReaderId.
  pose proof (fold_max_step_ge (Readers m) 0) as [Hge Hids].
  pose proof (fold_max_step_le (Readers m) 0 n ltac:(lia) Hall) as Hle.
  rewrite wrap_int_in_range by (unfold in_int, INT_MIN, INT_MAX in *; lia).
  split; [lia|]. eapply Forall_impl; [exact Hids|]. simpl. intros; lia.
Qed.

Lemma NextReaderId_empty (m : LibraryManager) : Readers m = [] -> NextReaderId m = 1%Z.
Proof. unfold NextReaderId. by intros ->. Qed.

Lemma reader_step_bounded (m : LibraryManager) (o : reader_op) (n : Z) :
  (0 <= n < INT_MAX)%Z ->
  Forall (fun r => (Id r <= n)%Z) (Readers m) ->
  Forall (fun r => (Id r <= n + 1)%Z) (Readers (reader_step m o)).
Proof.
  intros Hn Hall.
  assert (Hweak : Forall (fun r => (Id r <= n + 1)%Z) (Readers m)).
  { eapply Forall_impl; [exact Hall|]. simpl. intros; lia. }
  destruct o as [name email|id]; simpl.
  - unfold AddReader. destruct (existsb _ _); simpl; [done|].
    apply Forall_app. split; [done|]. constructor; [|constructor]. simpl.
    by destruct (NextReaderId_above m n Hn Hall) as [[_ ?] _].
  - unfold RemoveReader. destruct (_ =? _)%nat; simpl; [done|].
    by apply Forall_delete.
Qed.

Lemma reader_run_bounded (ops : list reader_op) (m : LibraryManager) (n : Z) :
  (0 <= n)%Z -> (n + Z.of_nat (length ops) <= INT_MAX)%Z ->
  Forall (fun r => (Id r <= n)%Z) (Readers m) ->
  Forall (fun r => (Id r <= n + Z.of_nat (length ops))%Z) (Readers (reader_run ops m)).
Proof.
  revert m n. induction ops as [|o ops IH]; intros m n Hn Hlen Hall.
  - simpl. eapply Forall_impl; [exact Hall|]. simpl. intros; lia.
  - change (length (o :: ops)) with (S (length ops)) in *.
    change (reader_run (o :: ops) m) with (reader_run ops (reader_step m o)).
    replace (n + Z.of_nat (S (length ops)))%Z
      with ((n + 1) + Z.of_nat (length ops))%Z in * by lia.
    apply IH; [lia | lia |]. apply reader_step_bounded; [lia | done].
Qed.

Lemma fold_max_step_is_one (v : list Reader) (a : Z) :
  fold_left max_step v a = a \/ exists r, r ∈ v /\ fold_left max_step v a = Id r.
Proof.
  revert a. induction v as [|r v IH]; intros a; simpl; [by left|].
  destruct (IH (max_step a r)) as [He|(x & Hx & He)].
  - rewrite He. unfold max_step. destruct (Id r >? a)%Z; [|by left].
    right. exists r. split; [by left | done].
  - right. exists x. split; [by right | done].
Qed.

(** Without overflow NextReaderId is 1 or the successor of an Id present. *)
Lemma NextReaderId_successor (m : LibraryManager) (n : Z) :
  (0 <= n < INT_MAX)%Z -> Forall (fun r => (Id r <= n)%Z) (Readers m) ->
  NextReaderId m = 1%Z \/ exists r, r ∈ Readers m /\ NextReaderId m = (Id r + 1)%Z.
Proof.
  intros Hn Hall. unfold NextReaderId.
  pose proof (fold_max_step_ge (Readers m) 0) as [Hge _].
  pose proof (fold_max_step_le (Readers m) 0 n ltac:(lia) Hall) as Hle.
  rewrite wrap_int_in_range by (unfold in_int, INT_MIN, INT_MAX in *; lia).
  destruct (fold_max_step_is_one (Readers m) 0) as [->|(r & Hr & ->)]; [by left|].
  right. by exists r.
Qed.

(** C3, as amended: after any run of fewer than 2^31 - 1 AddReader (with the
    Id taken from NextReaderId) and RemoveReader operations from the empty
    manager, NextReaderId returns an Id greater than the Id of every reader
    present, hence the Id of no present reader; it is 1 when no reader is
    present, and in every case either 1 or one more than the Id of a reader
    present. *)
Theorem NextReaderId_above_present_readers (ops : list reader_op) :
  (Z.of_nat (length ops) < INT_MAX)%Z ->
  let m := reader_run ops empty_manager in
  Forall (fun r => (Id r < NextReaderId m)%Z) (Readers m) /\
  (forall r, r ∈ Readers m -> Id r <> NextReaderId m) /\
  (Readers m = [] -> NextReaderId m = 1%Z) /\
  (NextReaderId m = 1%Z \/
   exists r, r ∈ Readers m /\ NextReaderId m = (Id r + 1)%Z).
Proof.
  intros Hlen m.
  assert (Hb : Forall (fun r => (Id r <= Z.of_nat (length ops))%Z) (Readers m)).
  { apply (reader_run_bounded ops empty_manager 0); [lia | lia | constructor]. }
  destruct (NextReaderId_above m (Z.of_nat (length ops)) ltac:(lia) Hb) as [_ Habove].
  split; [done|]. split; [|split; [apply NextReaderId_empty|]].
  - intros r Hr. rewrite Forall_forall in Habove. specialize (Habove r Hr). lia.
  - by apply (NextReaderId_successor m (Z.of_nat (length ops))); [lia|].
Qed.

Lemma NextReaderId_above_present_readers_witness :
  let m := reader_run reader_ops_reuse empty_manager in
  Forall (fun r => (Id r < NextReaderId m)%Z) (Readers m).
Proof.
  refine (proj1 (NextReaderId_above_present_readers reader_ops_reuse _)).
  unfold INT_MAX. simpl. lia.
Defined.

(** C3 as stated fails: Id 2 is assigned to the second reader, that reader is
    removed, and NextReaderId returns 2 again. *)
Lemma removed_reader_Id_is_reused : ~ never_reused reader_ops_reuse.
Proof.
  intros H. apply (H 2%Z).
  - vm_compute. right. left.
  - intros r Hr. vm_compute in Hr. apply list_elem_of_singleton in Hr as ->. done.
  - reflexivity.
Qed.

(** * The availability invariant, where it does hold *)

(** Every operation either changes nothing or has one of the effects. *)
Lemma step_effect (m : LibraryManager) (o : op) :
  step m o = m \/ effect m o (step m o).
Proof.
  destruct o as [b|isbn|r|id|isbn rid now|isbn rid now]; unfold step.
  - destruct (book_position_cases (ISBN b) (Books m)) as [[_ Hno]|(l1 & x & l2 & Hf)].
    + right. rewrite (AddBook_fresh _ _ Hno). by constructor.
    + left. rewrite AddBook_duplicate; [done|]. exists x.
      destruct Hf as (-> & Hx & _). split; [|done]. apply elem_of_app. right. by left.
  - destruct (book_position_cases isbn (Books m)) as [[_ Hno]|(l1 & x & l2 & Hf)].
    + left. by rewrite (RemoveBook_missing _ _ Hno).
    + rewrite (RemoveBook_first _ _ _ _ _ Hf). destruct (IsAvailable x) eqn:Hav.
      * right. by econstructor.
      * by left.
  - unfold AddReader. destruct (existsb _ _) eqn:E; [by left|]. right. constructor.
    intros x Hx Hid.
    assert (existsb (id_is (Id r)) (Readers m) = true); [|congruence].
    apply existsb_exists. exists x. split; [by apply list_elem_of_In|].
    by apply id_is_true.
  - destruct (reader_position_cases id (Readers m)) as [[_ Hno]|(l1 & x & l2 & Hf)].
    + left. by rewrite (RemoveReader_missing _ _ Hno).
    + right. rewrite (RemoveReader_first _ _ _ _ _ Hf), erase_active_loans_filter.
      by econstructor.
  - destruct (book_position_cases isbn (Books m)) as [[_ Hno]|(l1 & x & l2 & Hf)].
    + left. by rewrite (IssueLoan_missing _ _ _ _ Hno).
    + rewrite (IssueLoan_first _ _ _ _ _ _ _ Hf). destruct (IsAvailable x) eqn:Hav.
      * destruct (reader_position_cases rid (Readers m))
          as [[_ Hnor]|(r1 & r & r2 & Hr)].
        -- left. by rewrite (FindReader_none _ _ Hnor).
        -- rewrite (FindReader_first _ _ _ _ _ Hr). right. constructor; [done..|].
           exists r. destruct Hr as (-> & Hid & _). split; [|done].
           apply elem_of_app. right. by left.
      * by left.
  - destruct (decide (find_if (active_loan_of isbn rid) (Loans m) = length (Loans m)))
      as [He|Hne].
    + left. unfold ReturnBook. by rewrite He, Nat.eqb_refl.
    + right. apply find_if_found in Hne as (k1 & l & k2 & Hloans & Hl & Hk1 & _).
      rewrite (ReturnBook_at _ _ _ _ _ _ _ Hloans Hl Hk1).
      apply active_loan_of_true in Hl as (Hisbn & _ & Hret).
      destruct (book_position_cases isbn (Books m)) as [[_ Hno]|(l1 & x & l2 & Hf)].
      * rewrite (FindBook_none _ _ Hno). by eapply effect_ReturnBook_no_book.
      * rewrite (FindBook_first _ _ _ _ _ Hf).
        replace (alter MarkAsAvailable (length l1) (Books m))
          with (l1 ++ MarkAsAvailable x :: l2)
          by (destruct Hf as (-> & _); by rewrite alter_middle).
        by eapply effect_ReturnBook.
Qed.

Lemma has_active_loan_true (m : LibraryManager) (isbn : string) :
  has_active_loan m isbn = true <->
  exists l, l ∈ Loans m /\ BookISBN l = isbn /\ ReturnDate l = None.
Proof.
  unfold has_active_loan. induction (Loans m) as [|x k IH]; simpl.
  - split; [done|]. intros (l & Hl & _). by apply elem_of_nil in Hl.
  - rewrite orb_true_iff, IH, andb_true_iff, String.eqb_eq. unfold no_ReturnDate.
    split.
    + intros [[Hx Hr]|(l & Hl & H)].
      * exists x. split; [by left|]. split; [done|]. by destruct (ReturnDate x).
      * exists l. split; [by right | done].
    + intros (l & Hl & Hisbn & Hr). apply elem_of_cons in Hl as [->|Hl].
      * left. by rewrite Hr.
      * right. by exists l.
Qed.

Lemma ISBN_unique (v : list Book) (x y : Book) :
  NoDup (ISBN <$> v) -> x ∈ v -> y ∈ v -> ISBN x = ISBN y -> x = y.
Proof.
  induction v as [|a v IH]; simpl; intros Hnd Hx Hy Heq.
  - by apply elem_of_nil in Hx.
  - apply NoDup_cons in Hnd as [Ha Hnd].
    apply elem_of_cons in Hx as [->|Hx]; apply elem_of_cons in Hy as [->|Hy].
    + done.
    + destruct Ha. rewrite Heq. apply list_elem_of_fmap. by exists y.
    + destruct Ha. rewrite <- Heq. apply list_elem_of_fmap. by exists x.
    + by apply IH.
Qed.

Lemma elem_of_middle {A : Type} (x y : A) (l1 l2 : list A) :
  x ∈ l1 ++ y :: l2 <-> x = y \/ x ∈ l1 ++ l2.
Proof. rewrite !elem_of_app, elem_of_cons. tauto. Qed.

Lemma filter_nonempty {A : Type} (P : A -> Prop) `{!forall x, Decision (P x)}
    (v : list A) (x : A) :
  x ∈ v -> P x -> 1 <= length (filter P v).
Proof.
  intros Hx HP. assert (Hin : x ∈ filter P v) by by apply list_elem_of_filter.
  destruct (filter P v); [by apply elem_of_nil in Hin | simpl; lia].
Qed.

Lemma filter_filter_length {A : Type} (P Q : A -> Prop)
    `{!forall x, Decision (P x)} `{!forall x, Decision (Q x)} (v : list A) :
  length (filter P (filter Q v)) <= length (filter P v).
Proof.
  induction v as [|x v IH]; [done|]. rewrite !(filter_cons _ x).
  destruct (decide (Q x)), (decide (P x)); simpl;
    rewrite ?filter_cons_True, ?filter_cons_False by done; simpl; lia.
Qed.

Lemma first_with_books (isbn : string) (v l1 : list Book) (b : Book) (l2 : list Book) :
  first_with (fun x => ISBN x = isbn) v l1 b l2 ->
  v = l1 ++ b :: l2 /\ ISBN b = isbn /\ b ∈ v /\
  (forall x, x ∈ l1 ++ l2 -> x ∈ v) /\
  (forall f, (forall x, ISBN (f x) = ISBN x) ->
     ISBN <$> (l1 ++ f b :: l2) = ISBN <$> v).
Proof.
  intros (-> & Hb & _). repeat split; try done.
  - apply elem_of_middle. by left.
  - intros x Hx. apply elem_of_middle. by right.
  - intros f Hf. by rewrite !fmap_app, !fmap_cons, Hf.
Qed.

Lemma active_loans_of_split (isbn : string) (k1 : list Loan) (l : Loan) (k2 : list Loan) :
  length (active_loans_of isbn (k1 ++ l :: k2)) =
  length (active_loans_of isbn (k1 ++ k2)) +
  length (active_loans_of isbn [l]).
Proof.
  unfold active_loans_of. rewrite !filter_app, (filter_cons _ l k2), (filter_cons _ l []).
  rewrite filter_nil. destruct (decide _); rewrite !length_app; simpl; lia.
Qed.

(** The reachable managers are consistent: every effect keeps it so. *)
Lemma effect_keeps_consistent (m m' : LibraryManager) (o : op) :
  loans_consistent m -> effect m o m' -> loans_consistent m'.
Proof.
  intros (P1 & P2 & P3) Heff.
  destruct Heff as [b Hfresh | isbn l1 b l2 Hf Hav | r Hnew | id l1 r l2 Hf
                   | isbn rid now l1 b l2 Hf Hav Hreader
                   | isbn rid now k1 l k2 l1 b l2 Hloans Hisbn Hret Hf
                   | isbn rid now k1 l k2 Hloans Hisbn Hret Hno];
    unfold loans_consistent; simpl.
  - (* AddBook *)
    split; [|split; [done|]].
    + rewrite fmap_app. apply NoDup_app. split; [done|]. split; [|apply NoDup_singleton].
      intros i Hin. apply list_elem_of_fmap in Hin as (x & -> & Hx).
      simpl. rewrite list_elem_of_singleton. by apply Hfresh.
    + intros l Hl Hr. destruct (P3 l Hl Hr) as (b' & Hb' & H).
      exists b'. split; [|done]. apply elem_of_app. by left.
  - (* RemoveBook *)
    destruct (first_with_books _ _ _ _ _ Hf) as (Hbooks & Hb & Hin & Hsub & _).
    split; [|split; [done|]].
    + rewrite <- (delete_middle l1 l2 b), <- Hbooks. by apply NoDup_ISBN_delete.
    + intros l Hl Hr. destruct (P3 l Hl Hr) as (b' & Hb' & Hi & Hu).
      exists b'. split; [|done]. rewrite Hbooks in Hb'.
      apply elem_of_middle in Hb' as [->|Hb']; [congruence | done].
  - (* AddReader *)
    done.
  - (* RemoveReader *)
    split; [done|]. split.
    + intros isbn. etrans; [apply filter_filter_length | apply P2].
    + intros l Hl Hr. apply list_elem_of_filter in Hl as [_ Hl]. by apply P3.
  - (* IssueLoan *)
    destruct (first_with_books _ _ _ _ _ Hf) as (Hbooks & Hb & Hin & Hsub & Hfmap).
    split; [|split].
    + by rewrite (Hfmap MarkAsLoaned).
    + intros isbn'. unfold active_loans_of. rewrite filter_app, length_app.
      rewrite filter_cons, filter_nil. destruct (decide _) as [[Hi _]|_]; simpl in *.
      * subst isbn'. specialize (P2 isbn). unfold active_loans_of in P2.
        destruct (filter _ (Loans m)) as [|l0 tl] eqn:E; [simpl; lia|].
        assert (Hl0 : l0 ∈ filter (fun l => BookISBN l = isbn /\ ReturnDate l = None)
                          (Loans m)) by (rewrite E; by left).
        apply list_elem_of_filter in Hl0 as [[Hi0 Hr0] Hl0].
        destruct (P3 l0 Hl0 Hr0) as (b' & Hb' & Hi' & Hu').
        assert (b' = b) as -> by (apply (ISBN_unique (Books m)); congruence).
        congruence.
      * specialize (P2 isbn'). unfold active_loans_of in P2. lia.
    + intros l Hl Hr. apply elem_of_app in Hl as [Hl|Hl].
      * destruct (P3 l Hl Hr) as (b' & Hb' & Hi' & Hu').
        exists b'. split; [|done]. rewrite Hbooks in Hb'.
        apply elem_of_middle in Hb' as [->|Hb']; [congruence|].
        apply elem_of_middle. by right.
      * apply list_elem_of_singleton in Hl as ->. exists (MarkAsLoaned b).
        split; [apply elem_of_middle; by left | done].
  - (* ReturnBook *)
    destruct (first_with_books _ _ _ _ _ Hf) as (Hbooks & Hb & Hin & Hsub & Hfmap).
    split; [|split].
    + by rewrite (Hfmap MarkAsAvailable).
    + intros isbn'. specialize (P2 isbn'). rewrite Hloans in P2.
      rewrite active_loans_of_split in *.
      replace (length (active_loans_of isbn' [set_ReturnDate now l])) with 0; [lia|].
      unfold active_loans_of. rewrite filter_cons_False; [done|]. by intros [_ ?].
    + intros l' Hl' Hr'. apply elem_of_middle in Hl' as [->|Hl']; [done|].
      assert (Hold : l' ∈ Loans m) by (rewrite Hloans; apply elem_of_middle; by right).
      destruct (P3 l' Hold Hr') as (b' & Hb' & Hi' & Hu').
      exists b'. split; [|done].
      assert (Hne : BookISBN l' <> isbn).
      { intros He. specialize (P2 isbn). rewrite Hloans, active_loans_of_split in P2.
        pose proof (filter_nonempty (fun l => BookISBN l = isbn /\ ReturnDate l = None)
                      (k1 ++ k2) l' Hl' (conj He Hr')) as H1.
        unfold active_loans_of in P2. rewrite (filter_cons_True _ l []) in P2 by done.
        simpl in P2. lia. }
      rewrite Hbooks in Hb'. apply elem_of_middle in Hb' as [->|Hb']; [congruence|].
      apply elem_of_middle. by right.
  - (* ReturnBook, the book is gone: excluded by consistency *)
    assert (Hl : l ∈ Loans m) by (rewrite Hloans; apply elem_of_middle; by left).
    destruct (P3 l Hl Hret) as (b' & Hb' & Hi' & _). destruct (Hno b' Hb'). congruence.
Qed.

Lemma step_keeps_consistent (m : LibraryManager) (o : op) :
  loans_consistent m -> loans_consistent (step m o).
Proof.
  intros H. destruct (step_effect m o) as [->|Heff]; [done|].
  by apply (effect_keeps_consistent m _ o).
Qed.

Lemma run_consistent (ops : list op) (m : LibraryManager) :
  loans_consistent m -> loans_consistent (run ops m).
Proof.
  revert m. induction ops as [|o ops IH]; intros m H; [done|].
  simpl. by apply IH, step_keeps_consistent.
Qed.

Lemma empty_manager_consistent : loans_consistent empty_manager.
Proof.
  split; [constructor|]. split; [simpl; intros; lia|].
  intros l Hl. by apply elem_of_nil in Hl.
Qed.

Lemma consistent_available_book (m : LibraryManager) (b : Book) :
  loans_consistent m -> b ∈ Books m -> IsAvailable b = true ->
  has_active_loan m (ISBN b) = false.
Proof.
  intros (P1 & _ & P3) Hb Hav.
  destruct (has_active_loan _ _) eqn:E; [|done].
  apply has_active_loan_true in E as (l & Hl & Hi & Hr).
  destruct (P3 l Hl Hr) as (b' & Hb' & Hi' & Hu').
  assert (b' = b) as -> by (apply (ISBN_unique _ _ _ P1); congruence).
  congruence.
Qed.

(** One half of the invariant holds in every reachable state, whatever the
    operations: a book with an active loan is flagged unavailable, that is, an
    available book has no active loan. *)
Theorem available_book_has_no_active_loan (ops : list op) (b : Book) :
  b ∈ Books (run ops empty_manager) ->
  IsAvailable b = true ->
  has_active_loan (run ops empty_manager) (ISBN b) = false.
Proof.
  intros Hb Hav.
  destruct (run_consistent ops _ empty_manager_consistent) as (P1 & _ & P3).
  destruct (has_active_loan _ _) eqn:E; [|done].
  apply has_active_loan_true in E as (l & Hl & Hi & Hr).
  destruct (P3 l Hl Hr) as (b' & Hb' & Hi' & Hu').
  assert (b' = b) as -> by (apply (ISBN_unique _ _ _ P1); congruence).
  congruence.
Qed.

Lemma first_with_later_differs (isbn : string) (v l1 : list Book) (b : Book)
    (l2 : list Book) (x : Book) :
  NoDup (ISBN <$> v) ->
  first_with (fun y => ISBN y = isbn) v l1 b l2 ->
  x ∈ l1 ++ l2 -> ISBN x <> isbn.
Proof.
  intros Hnd (-> & Hb & Hl1) Hx He.
  rewrite fmap_app, fmap_cons in Hnd. apply NoDup_app in Hnd as (_ & Hdisj & Hnd).
  apply NoDup_cons in Hnd as [Hnotin _].
  apply elem_of_app in Hx as [Hx|Hx].
  - rewrite Forall_forall in Hl1. by apply (Hl1 x).
  - apply Hnotin. rewrite Hb, <- He. apply list_elem_of_fmap. by exists x.
Qed.

(** A regular operation keeps the other half: an unavailable book is on loan. *)
Lemma effect_keeps_on_loan (m m' : LibraryManager) (o : op) :
  loans_consistent m -> unavailable_books_on_loan m -> regular m o ->
  effect m o m' -> unavailable_books_on_loan m'.
Proof.
  intros (P1 & P2 & P3) P4 Hreg Heff.
  destruct Heff as [b Hfresh | isbn l1 b l2 Hf Hav | r Hnew | id l1 r l2 Hf
                   | isbn rid now l1 b l2 Hf Hav Hreader
                   | isbn rid now k1 l k2 l1 b l2 Hloans Hisbn Hret Hf
                   | isbn rid now k1 l k2 Hloans Hisbn Hret Hno];
    unfold unavailable_books_on_loan; simpl in *.
  - (* AddBook *)
    intros x Hx Hu. apply elem_of_app in Hx as [Hx|Hx]; [by apply P4|].
    apply list_elem_of_singleton in Hx as ->. congruence.
  - (* RemoveBook *)
    destruct (first_with_books _ _ _ _ _ Hf) as (_ & _ & _ & Hsub & _).
    intros x Hx Hu. apply P4; [by apply Hsub | done].
  - (* AddReader *)
    done.
  - (* RemoveReader *)
    intros x Hx Hu. destruct (P4 x Hx Hu) as (l & Hl & Hi & Hr).
    exists l. split; [|done]. apply list_elem_of_filter. split; [|done].
    intros [Hid _]. by apply (Hreg l).
  - (* IssueLoan *)
    destruct (first_with_books _ _ _ _ _ Hf) as (_ & Hb & _ & Hsub & _).
    intros x Hx Hu. apply elem_of_middle in Hx as [->|Hx].
    + exists (mkLoan isbn rid now None). split; [|done].
      apply elem_of_app. right. by left.
    + destruct (P4 x (Hsub x Hx) Hu) as (l & Hl & H).
      exists l. split; [|done]. apply elem_of_app. by left.
  - (* ReturnBook *)
    destruct (first_with_books _ _ _ _ _ Hf) as (_ & Hb & _ & Hsub & _).
    intros x Hx Hu. apply elem_of_middle in Hx as [->|Hx]; [done|].
    destruct (P4 x (Hsub x Hx) Hu) as (l' & Hl' & Hi' & Hr').
    pose proof (first_with_later_differs _ _ _ _ _ x P1 Hf Hx) as Hne.
    exists l'. split; [|done]. rewrite Hloans in Hl'.
    apply elem_of_middle in Hl' as [->|Hl']; [congruence|].
    apply elem_of_middle. by right.
  - (* ReturnBook, the book is gone: excluded by consistency *)
    assert (Hl : l ∈ Loans m) by (rewrite Hloans; apply elem_of_middle; by left).
    destruct (P3 l Hl Hret) as (b' & Hb' & Hi' & _). destruct (Hno b' Hb'). congruence.
Qed.

Lemma regular_run_on_loan (ops : list op) (m : LibraryManager) :
  loans_consistent m -> unavailable_books_on_loan m -> regular_run ops m ->
  unavailable_books_on_loan (run ops m).
Proof.
  revert m. induction ops as [|o ops IH]; intros m Hc H4 Hreg; [done|].
  destruct Hreg as [Ho Hrest]. simpl.
  apply IH; [by apply step_keeps_consistent | | done].
  destruct (step_effect m o) as [->|Heff]; [done|].
  by apply (effect_keeps_on_loan m _ o).
Qed.

(** The invariant of the data model holds along every run from the empty
    manager in which books are added with IsAvailable = true and RemoveReader
    is not applied to a reader who holds an active loan. *)
Theorem regular_run_in_sync (ops : list op) :
  regular_run ops empty_manager ->
  availability_in_sync (run ops empty_manager).
Proof.
  intros Hreg b Hb.
  destruct (IsAvailable b) eqn:Hav.
  - by rewrite (consistent_available_book _ b
                  (run_consistent ops _ empty_manager_consistent) Hb Hav).
  - assert (H4 : unavailable_books_on_loan (run ops empty_manager)).
    { apply regular_run_on_loan; [apply empty_manager_consistent | | done].
      intros x Hx. by apply elem_of_nil in Hx. }
    destruct (H4 b Hb Hav) as (l & Hl & Hi & Hr).
    assert (E : has_active_loan (run ops empty_manager) (ISBN b) = true)
      by (apply has_active_loan_true; by exists l).
    by rewrite E.
Qed.

Lemma scenario_run_in_sync :
  availability_in_sync
    (run [OpAddBook dune; OpAddReader ann; OpIssueLoan "111" 1 "2024-01-01T10:00:00Z"]
       empty_manager).
Proof.
  apply regular_run_in_sync. simpl. repeat split.
Defined.

Lemma available_book_has_no_active_loan_witness :
  has_active_loan (run ops_one_round empty_manager) (ISBN dune) = false.
Proof.
  apply (available_book_has_no_active_loan ops_one_round dune).
  - vm_compute. left.
  - reflexivity.
Defined.

(** * SearchBooks *)

Lemma str_app_cons (a : Ascii.ascii) (s t : string) :
  String a s +:+ t = String a (s +:+ t).
Proof. reflexivity. Qed.

Lemma str_app_nil_r (s : string) : s +:+ "" = s.
Proof. induction s as [|a s IH]; [done|]. by rewrite str_app_cons, IH. Qed.

Lemma str_app_assoc (s t u : string) : (s +:+ t) +:+ u = s +:+ t +:+ u.
Proof. induction s as [|a s IH]; [done|]. by rewrite !str_app_cons, IH. Qed.

Lemma tolower_idem (c : Ascii.ascii) : tolower (tolower c) = tolower c.
Proof. by destruct c as [[] [] [] [] [] [] [] []]. Qed.

Lemma Lower_idem (s : string) : Lower (Lower s) = Lower s.
Proof. induction s as [|a s IH]; [done|]. simpl. by rewrite tolower_idem, IH. Qed.

Lemma Lower_app (s t : string) : Lower (s +:+ t) = Lower s +:+ Lower t.
Proof. induction s as [|a s IH]; [done|]. rewrite str_app_cons. simpl. by rewrite IH. Qed.

Lemma Lower_empty (s : string) : Lower s = "" -> s = "".
Proof. by destruct s. Qed.

Lemma starts_with_spec (q s : string) :
  starts_with q s = true <-> exists post, s = q +:+ post.
Proof.
  revert s. induction q as [|a q IH]; intros s; simpl.
  - split; [|done]. intros _. by exists s.
  - destruct s as [|b s].
    + split; [done|]. by intros (post & ?).
    + rewrite andb_true_iff, IH. split.
      * intros [Hab (post & ->)]. apply Ascii.eqb_eq in Hab as ->. by exists post.
      * intros (post & Heq). rewrite str_app_cons in Heq. injection Heq as -> ->.
        split; [apply Ascii.eqb_refl | by exists post].
Qed.

(** [find] reports an occurrence exactly when there is one. *)
Lemma occurs_in_spec (q s : string) :
  occurs_in q s = true <-> exists pre post, s = pre +:+ q +:+ post.
Proof.
  unfold occurs_in. induction s as [|b s IH]; simpl.
  - destruct (starts_with q "") eqn:E.
    + split; [|done]. intros _. apply starts_with_spec in E as (post & ->).
      by exists "", post.
    + split; [done|]. intros (pre & post & Heq). destruct pre; [|done].
      assert (starts_with q "" = true) by (apply starts_with_spec; by exists post).
      congruence.
  - destruct (starts_with q (String b s)) eqn:E.
    + split; [|done]. intros _. apply starts_with_spec in E as (post & ->).
      by exists "", post.
    + destruct (string_find s q) as [n|]; simpl in *.
      * split; [|done]. intros _. destruct (proj1 IH eq_refl) as (pre & post & ->).
        by exists (String b pre), post.
      * split; [done|]. intros (pre & post & Heq). destruct pre as [|c pre].
        -- assert (starts_with q (String b s) = true)
             by (apply starts_with_spec; by exists post).
           congruence.
        -- rewrite str_app_cons in Heq. injection Heq as -> ->.
           apply IH. by exists pre, post.
Qed.

Lemma filter_bool_sublist {A : Type} (f g : A -> bool) (v : list A) :
  (forall x, x ∈ v -> f x = true -> g x = true) ->
  List.filter f v `sublist_of` List.filter g v.
Proof.
  induction v as [|x v IH]; intros H; simpl; [done|].
  assert (IH' : List.filter f v `sublist_of` List.filter g v).
  { apply IH. intros y Hy. apply H. by right. }
  destruct (f x) eqn:Hf.
  - rewrite (H x) by (done || by left). by constructor.
  - destruct (g x); [by constructor | done].
Qed.

Lemma elem_of_filter_bool {A : Type} (f : A -> bool) (v : list A) (x : A) :
  x ∈ List.filter f v <-> x ∈ v /\ f x = true.
Proof. rewrite !list_elem_of_In. apply filter_In. Qed.

Lemma term_matches_spec (q : string) (b : Book) :
  term_matches q b = true <->
  (exists pre post, Lower (Title b) = pre +:+ q +:+ post) \/
  (exists pre post, Lower (Author b) = pre +:+ q +:+ post).
Proof. unfold term_matches. by rewrite orb_true_iff, !occurs_in_spec. Qed.

(** What a search returns: for the empty term every book; otherwise the
    books whose title or author, letters A-Z lowered, contains the lowered
    term as a substring. *)
Theorem SearchBooks_membership (m : LibraryManager) (term : string) (b : Book) :
  b ∈ SearchBooks m term <->
  b ∈ Books m /\
  (term = "" \/
   (exists pre post, Lower (Title b) = pre +:+ Lower term +:+ post) \/
   (exists pre post, Lower (Author b) = pre +:+ Lower term +:+ post)).
Proof.
  destruct term as [|c t].
  - simpl. split; [intros H; split; [done | by left] | by intros [? _]].
  - unfold SearchBooks. rewrite elem_of_filter_bool, term_matches_spec.
    split; [intros [? ?]; split; [done | by right] |].
    intros [? [?|?]]; [done | by split].
Qed.

(** A search never invents, repeats or reorders entries: the result is a
    subsequence of Books, and the whole of Books for the empty term. *)
Theorem SearchBooks_sublist (m : LibraryManager) (term : string) :
  SearchBooks m term `sublist_of` Books m /\ SearchBooks m "" = Books m.
Proof.
  split; [|done]. destruct term as [|c t]; [done|].
  unfold SearchBooks.
  induction (Books m) as [|x v IH]; simpl; [done|].
  destruct (term_matches _ x); by constructor.
Qed.

Lemma same_letter_tolower (a b : Ascii.ascii) :
  same_letter a b = true -> tolower a = tolower b.
Proof.
  unfold same_letter, tolower.
  pose proof (Ascii.ascii_nat_embedding a) as Ha.
  pose proof (Ascii.ascii_nat_embedding b) as Hb.
  remember (Ascii.nat_of_ascii a) as x eqn:Hx. remember (Ascii.nat_of_ascii b) as y eqn:Hy.
  clear Hx Hy. subst a b.
  rewrite !orb_true_iff, !andb_true_iff, !Nat.eqb_eq, !Nat.leb_le.
  intros H.
  destruct (Nat.leb_spec 65 x), (Nat.leb_spec x 90), (Nat.leb_spec 65 y),
    (Nat.leb_spec y 90); simpl; f_equal; lia.
Qed.

Lemma same_up_to_case_Lower (t1 t2 : string) :
  same_up_to_case t1 t2 = true -> Lower t1 = Lower t2.
Proof.
  revert t2. induction t1 as [|a t1 IH]; intros [|b t2]; simpl; try done.
  intros [Hab Hrest]%andb_true_iff.
  by rewrite (same_letter_tolower a b Hab), (IH t2 Hrest).
Qed.

(** The search is blind to the case of the letters in the term: two terms that
    differ only in the case of letters A-Z / a-z give the same result. *)
Theorem SearchBooks_case_insensitive (m : LibraryManager) (t1 t2 : string) :
  same_up_to_case t1 t2 = true -> SearchBooks m t1 = SearchBooks m t2.
Proof.
  intros H. apply same_up_to_case_Lower in H.
  destruct t1 as [|c1 t1], t2 as [|c2 t2]; try done.
  unfold SearchBooks. by rewrite H.
Qed.

Lemma SearchBooks_case_insensitive_witness :
  SearchBooks manager_with_duplicates "MESSiah" = [messiah] /\
  SearchBooks manager_with_duplicates "messIAH" = [messiah].
Proof.
  rewrite (SearchBooks_case_insensitive manager_with_duplicates "messIAH" "MESSiah")
    by reflexivity.
  split; reflexivity.
Defined.

(** A book is found through any piece of its title or of its author, in
    whatever case the piece is typed. *)
Theorem SearchBooks_finds_piece (m : LibraryManager) (b : Book)
    (pre piece post term : string) :
  b ∈ Books m ->
  Title b = pre +:+ piece +:+ post \/ Author b = pre +:+ piece +:+ post ->
  Lower term = Lower piece ->
  b ∈ SearchBooks m term.
Proof.
  intros Hb Hpiece Hterm. apply SearchBooks_membership. split; [done|]. right.
  rewrite Hterm. destruct Hpiece as [H|H]; [left | right];
    exists (Lower pre), (Lower post); by rewrite H, !Lower_app.
Qed.

Lemma SearchBooks_finds_piece_witness : messiah ∈ SearchBooks manager_with_duplicates "e mESS".
Proof.
  apply (SearchBooks_finds_piece manager_with_duplicates messiah "Dun" "e Mess" "iah").
  - right. left.
  - by left.
  - reflexivity.
Defined.

(** Lengthening the term narrows the result: what a term finds is among what
    any piece of that term finds. *)
Theorem SearchBooks_narrows (m : LibraryManager) (pre piece post : string) :
  SearchBooks m (pre +:+ piece +:+ post) `sublist_of` SearchBooks m piece.
Proof.
  destruct (pre +:+ piece +:+ post) as [|c t] eqn:E.
  { destruct pre; [|done]. destruct piece; [|done]. done. }
  destruct piece as [|c' t'].
  { rewrite <- E. apply SearchBooks_sublist. }
  unfold SearchBooks. apply filter_bool_sublist. intros b _.
  rewrite !term_matches_spec, <- E, !Lower_app.
  intros [(p1 & p2 & H)|(p1 & p2 & H)]; [left | right];
    exists (p1 +:+ Lower pre), (Lower post +:+ p2);
    by rewrite H, !str_app_assoc.
Qed.

(** * More on the single operations *)

Lemma step_perform (m : LibraryManager) (o : op) : step m o = snd (perform m o).
Proof. by destruct o. Qed.

(** Every operation is all or nothing: when it returns false the manager is
    exactly as before. *)
Theorem failed_operation_changes_nothing (m : LibraryManager) (o : op) :
  fst (perform m o) = false -> snd (perform m o) = m.
Proof.
  destruct o as [b|isbn|r|id|isbn rid now|isbn rid now]; simpl.
  - unfold AddBook. by destruct (FindBook m (ISBN b)).
  - unfold RemoveBook. destruct (_ =? _)%nat; [done|].
    destruct (Books m !! _) as [x|]; [|done]. by destruct (IsAvailable x).
  - unfold AddReader. by destruct (existsb _ _).
  - unfold RemoveReader. by destruct (_ =? _)%nat.
  - unfold IssueLoan. destruct (FindBook m isbn) as [i|]; [|done].
    destruct (Books m !! i) as [bk|]; [|done].
    destruct (IsAvailable bk); [|done]. by destruct (FindReader m rid).
  - unfold ReturnBook. by destruct (_ =? _)%nat.
Qed.

Lemma failed_operation_changes_nothing_witness :
  snd (perform manager_with_duplicates (OpRemoveBook "999")) = manager_with_duplicates.
Proof. apply failed_operation_changes_nothing. reflexivity. Defined.

Lemma active_loan_of_false (isbn : string) (rid : Z) (l : Loan) :
  active_loan_of isbn rid l = false <->
  ~ (BookISBN l = isbn /\ ReaderId l = rid /\ ReturnDate l = None).
Proof.
  rewrite <- active_loan_of_true. by destruct (active_loan_of isbn rid l).
Qed.

(** ReturnBook: it fails, changing nothing, when no loan of that ISBN and
    reader is active; otherwise it stamps the first such loan with the
    current time, leaves every other loan and the readers alone, and makes the
    first book of that ISBN available; when no book has the ISBN the loan is
    closed all the same and Books stays as it is. *)
Theorem ReturnBook_spec (m : LibraryManager) (isbn : string) (readerId : Z) (now : string) :
  let mine := fun l => BookISBN l = isbn /\ ReaderId l = readerId /\ ReturnDate l = None in
  let res := ReturnBook m isbn readerId now in
  ((forall l, l ∈ Loans m -> ~ mine l) -> res = (false, m)) /\
  ((exists l, l ∈ Loans m /\ mine l) ->
     exists k1 l k2, first_with mine (Loans m) k1 l k2 /\
       fst res = true /\
       Loans (snd res) = k1 ++ mkLoan isbn readerId (LoanDate l) (Some now) :: k2 /\
       Readers (snd res) = Readers m /\
       ((forall x, x ∈ Books m -> ISBN x <> isbn) -> Books (snd res) = Books m) /\
       (forall l1 b l2, first_with (fun x => ISBN x = isbn) (Books m) l1 b l2 ->
          Books (snd res) = l1 ++ mkBook (Title b) (Author b) isbn true :: l2)).
Proof.
  simpl. split.
  - intros Hnone. unfold ReturnBook.
    replace (find_if (active_loan_of isbn readerId) (Loans m)) with (length (Loans m));
      [by rewrite Nat.eqb_refl|].
    symmetry. apply find_if_end, Forall_forall. intros l Hl.
    by apply active_loan_of_false, Hnone.
  - intros (l0 & Hl0 & Hmine).
    assert (Hne : find_if (active_loan_of isbn readerId) (Loans m) <> length (Loans m)).
    { intros He. apply find_if_end in He. rewrite Forall_forall in He.
      specialize (He l0 Hl0). by apply active_loan_of_false in He. }
    apply find_if_found in Hne as (k1 & l & k2 & Hloans & Hl & Hk1 & _).
    exists k1, l, k2. rewrite (ReturnBook_at _ _ _ _ _ _ _ Hloans Hl Hk1). simpl.
    pose proof Hl as (Hi & Hr & Hd)%active_loan_of_true.
    split; [|split; [done|split; [|split; [done|split]]]].
    + split; [done|]. split; [done|]. eapply Forall_impl; [exact Hk1|].
      intros y Hy. by apply active_loan_of_false.
    + unfold set_ReturnDate. by rewrite Hi, Hr.
    + intros Hno. by rewrite (FindBook_none _ _ Hno).
    + intros l1 b l2 Hf. rewrite (FindBook_first _ _ _ _ _ Hf).
      destruct Hf as (-> & <- & _). by rewrite alter_middle.
Qed.

(** Closed loans are history: no operation removes, alters or reorders a
    loan record whose ReturnDate is set. *)
Theorem closed_loans_are_kept (ops : list op) (m : LibraryManager) :
  closed_loans (Loans m) `sublist_of` closed_loans (Loans (run ops m)).
Proof.
  revert m. induction ops as [|o ops IH]; intros m; [done|].
  simpl. etrans; [|apply IH]. clear IH.
  destruct (step_effect m o) as [->|Heff]; [done|].
  destruct Heff as [b Hfresh | isbn l1 b l2 Hf Hav | r Hnew | id l1 r l2 Hf
                   | isbn rid now l1 b l2 Hf Hav Hreader
                   | isbn rid now k1 l k2 l1 b l2 Hloans Hisbn Hret Hf
                   | isbn rid now k1 l k2 Hloans Hisbn Hret Hno];
    unfold closed_loans; simpl; try done.
  - rewrite list_filter_filter. induction (Loans m) as [|x v IHv]; [done|].
    rewrite !filter_cons. destruct (decide (ReturnDate x <> None)) as [Hx|Hx].
    + rewrite decide_True; [by constructor|]. split; [done|]. by intros [_ ?].
    + rewrite decide_False; [done|]. by intros [? _].
  - rewrite filter_app. by apply sublist_inserts_r.
  - rewrite Hloans, !filter_app, (filter_cons_False _ l) by (intros ?; done).
    apply sublist_app; [done|]. rewrite filter_cons_True by done. by constructor.
  - rewrite Hloans, !filter_app, (filter_cons_False _ l) by (intros ?; done).
    apply sublist_app; [done|]. rewrite filter_cons_True by done. by constructor.
Qed.

(** Once a book is lent it can neither be removed nor lent again, to any
    reader, and it has an active loan. *)
Theorem lent_book_is_locked (m : LibraryManager) (isbn : string) (readerId : Z)
    (now : string) :
  fst (IssueLoan m isbn readerId now) = true ->
  let m1 := snd (IssueLoan m isbn readerId now) in
  RemoveBook m1 isbn = (false, m1) /\
  (forall readerId' now', IssueLoan m1 isbn readerId' now' = (false, m1)) /\
  has_active_loan m1 isbn = true.
Proof.
  intros Hok.
  destruct (book_position_cases isbn (Books m)) as [[_ Hno]|(l1 & b & l2 & Hf)].
  { by rewrite (IssueLoan_missing _ _ _ _ Hno) in Hok. }
  revert Hok. rewrite (IssueLoan_first _ _ _ _ _ _ _ Hf).
  destruct (IsAvailable b) eqn:Hav; [|done].
  destruct (FindReader m readerId); [|done]. intros _. simpl.
  set (m1 := mkLibraryManager _ _ _).
  assert (Hf1 : first_with (fun x => ISBN x = isbn) (Books m1) l1 (MarkAsLoaned b) l2).
  { destruct Hf as (_ & Hb & Hl1). by repeat split. }
  split; [|split].
  - by rewrite (RemoveBook_first _ _ _ _ _ Hf1).
  - intros rid' now'. by rewrite (IssueLoan_first _ _ _ _ _ _ _ Hf1).
  - apply has_active_loan_true. exists (mkLoan isbn readerId now None).
    split; [|done]. simpl. apply elem_of_app. right. by left.
Qed.

Lemma lent_book_is_locked_witness :
  let m1 := snd (IssueLoan manager_with_duplicates "111" 1 "2024-01-01T10:00:00Z") in
  RemoveBook m1 "111" = (false, m1).
Proof.
  refine (proj1 (lent_book_is_locked manager_with_duplicates "111" 1
                   "2024-01-01T10:00:00Z" _)).
  reflexivity.
Defined.

(** Adding a book and removing it again gives back the manager as it was. *)
Theorem AddBook_then_RemoveBook (m : LibraryManager) (b : Book) :
  fst (AddBook m b) = true -> IsAvailable b = true ->
  RemoveBook (snd (AddBook m b)) (ISBN b) = (true, m).
Proof.
  intros Hok Hav.
  destruct (book_position_cases (ISBN b) (Books m)) as [[_ Hno]|(l1 & x & l2 & Hf)].
  - rewrite (AddBook_fresh _ _ Hno). simpl.
    rewrite (RemoveBook_first _ (ISBN b) (Books m) b []).
    + rewrite Hav. simpl. rewrite app_nil_r. by destruct m.
    + split; [done|]. split; [done|]. apply Forall_forall. intros y Hy. by apply Hno.
  - rewrite AddBook_duplicate in Hok; [done|]. exists x.
    destruct Hf as (-> & Hx & _). split; [|done]. apply elem_of_app. right. by left.
Qed.

Lemma AddBook_then_RemoveBook_witness :
  RemoveBook (snd (AddBook empty_manager messiah)) "111" = (true, empty_manager).
Proof. by apply (AddBook_then_RemoveBook empty_manager messiah). Defined.

(** Adding a reader and removing that reader again gives back the manager as
    it was, provided no active loan already carried the reader's Id. *)
Theorem AddReader_then_RemoveReader (m : LibraryManager) (r : Reader) :
  fst (AddReader m r) = true ->
  (forall l, l ∈ Loans m -> ReaderId l = Id r -> ReturnDate l <> None) ->
  RemoveReader (snd (AddReader m r)) (Id r) = (true, m).
Proof.
  intros Hok Hloans. unfold AddReader in *.
  destruct (existsb (id_is (Id r)) (Readers m)) eqn:E; [done|]. simpl.
  rewrite (RemoveReader_first _ (Id r) (Readers m) r []).
  - rewrite app_nil_r, erase_active_loans_filter. simpl.
    replace (filter _ (Loans m)) with (Loans m); [by destruct m|].
    clear -Hloans. induction (Loans m) as [|x v IH]; [done|].
    rewrite filter_cons_True.
    + f_equal. apply IH. intros l Hl. apply Hloans. by right.
    + intros [Hid Hret]. by apply (Hloans x); [left|..].
  - split; [done|]. split; [done|]. apply Forall_forall. intros y Hy Hid.
    assert (existsb (id_is (Id r)) (Readers m) = true); [|congruence].
    apply existsb_exists. exists y. split; [by apply list_elem_of_In|].
    by apply id_is_true.
Qed.

Lemma AddReader_then_RemoveReader_witness :
  RemoveReader (snd (AddReader empty_manager ann)) 1 = (true, empty_manager).
Proof.
  apply (AddReader_then_RemoveReader empty_manager ann); [reflexivity|].
  intros l Hl. by apply elem_of_nil in Hl.
Defined.

(** * What holds in every manager reached from the empty one *)

Lemma filter_bool_Prop {A : Type} (f : A -> bool) (P : A -> Prop)
    `{!forall x, Decision (P x)} (v : list A) :
  (forall x, f x = true <-> P x) -> List.filter f v = filter P v.
Proof.
  intros Hiff. induction v as [|x v IH]; [done|]. simpl. rewrite filter_cons, IH.
  destruct (f x) eqn:E.
  - rewrite decide_True; [done|]. by apply Hiff.
  - rewrite decide_False; [done|]. intros HP. apply Hiff in HP. congruence.
Qed.

Lemma ActiveLoans_filter (m : LibraryManager) :
  ActiveLoans m = filter (fun l => ReturnDate l = None) (Loans m).
Proof.
  apply filter_bool_Prop. intros l. unfold no_ReturnDate.
  by destruct (ReturnDate l).
Qed.

Lemma AvailableBooks_filter (m : LibraryManager) :
  AvailableBooks m = filter (fun b => IsAvailable b = true) (Books m).
Proof. by apply filter_bool_Prop. Qed.

Lemma active_ISBNs_distinct (loans : list Loan) :
  (forall isbn, length (active_loans_of isbn loans) <= 1) ->
  NoDup (BookISBN <$> filter (fun l => ReturnDate l = None) loans).
Proof.
  induction loans as [|x v IH]; intros H; [constructor|].
  assert (Hv : forall isbn, length (active_loans_of isbn v) <= 1).
  { intros isbn. specialize (H isbn). unfold active_loans_of in *.
    rewrite filter_cons in H. destruct (decide _); simpl in H; lia. }
  rewrite filter_cons. destruct (decide (ReturnDate x = None)) as [Hx|Hx]; [|by apply IH].
  rewrite fmap_cons. apply NoDup_cons. split; [|by apply IH].
  intros Hin. apply list_elem_of_fmap in Hin as (y & Hy & Hin).
  apply list_elem_of_filter in Hin as [Hyr Hyv].
  specialize (H (BookISBN x)). unfold active_loans_of in H.
  rewrite filter_cons_True in H by done. simpl in H.
  pose proof (filter_nonempty (fun l => BookISBN l = BookISBN x /\ ReturnDate l = None)
                v y Hyv (conj (eq_sym Hy) Hyr)). lia.
Qed.

Lemma effect_keeps_borrowers (m m' : LibraryManager) (o : op) :
  borrowers_present m -> effect m o m' -> borrowers_present m'.
Proof.
  intros Q Heff.
  destruct Heff as [b Hfresh | isbn l1 b l2 Hf Hav | r Hnew | id l1 r l2 Hf
                   | isbn rid now l1 b l2 Hf Hav Hreader
                   | isbn rid now k1 l k2 l1 b l2 Hloans Hisbn Hret Hf
                   | isbn rid now k1 l k2 Hloans Hisbn Hret Hno];
    unfold borrowers_present; simpl; try done.
  - intros l Hl Hr. destruct (Q l Hl Hr) as (x & Hx & Hid).
    exists x. split; [|done]. apply elem_of_app. by left.
  - intros l Hl Hr. apply list_elem_of_filter in Hl as [Hkeep Hl].
    destruct (Q l Hl Hr) as (x & Hx & Hid). exists x. split; [|done].
    destruct Hf as (Hreaders & Hrid & _). rewrite Hreaders in Hx.
    apply elem_of_middle in Hx as [->|Hx]; [|done].
    destruct Hkeep. split; [congruence | done].
  - intros l Hl Hr. apply elem_of_app in Hl as [Hl|Hl]; [by apply Q|].
    by apply list_elem_of_singleton in Hl as ->.
  - intros l' Hl' Hr'. apply elem_of_middle in Hl' as [->|Hl']; [done|].
    apply Q; [|done]. rewrite Hloans. apply elem_of_middle. by right.
  - intros l' Hl' Hr'. apply elem_of_middle in Hl' as [->|Hl']; [done|].
    apply Q; [|done]. rewrite Hloans. apply elem_of_middle. by right.
Qed.

Lemma run_keeps_borrowers (ops : list op) (m : LibraryManager) :
  borrowers_present m -> borrowers_present (run ops m).
Proof.
  revert m. induction ops as [|o ops IH]; intros m H; [done|].
  simpl. apply IH. destruct (step_effect m o) as [->|Heff]; [done|].
  by apply (effect_keeps_borrowers m _ o).
Qed.

(** No book is on loan twice: the active loans of a manager reached from the
    empty one are for pairwise different ISBNs. *)
Theorem one_active_loan_per_book (ops : list op) :
  NoDup (BookISBN <$> ActiveLoans (run ops empty_manager)).
Proof.
  rewrite ActiveLoans_filter. apply active_ISBNs_distinct.
  by destruct (run_consistent ops _ empty_manager_consistent) as (_ & P2 & _).
Qed.

(** No active loan dangles: in a manager reached from the empty one every
    active loan is for a book that is present and not among the available
    books, and was taken by a reader who is present. *)
Theorem active_loan_refers_to_book_and_reader (ops : list op) (l : Loan) :
  let m := run ops empty_manager in
  l ∈ ActiveLoans m ->
  (exists b, b ∈ Books m /\ ISBN b = BookISBN l /\ IsAvailable b = false /\
             b ∉ AvailableBooks m) /\
  (exists r, r ∈ Readers m /\ Id r = ReaderId l).
Proof.
  intros m Hl. rewrite ActiveLoans_filter in Hl.
  apply list_elem_of_filter in Hl as [Hr Hl].
  destruct (run_consistent ops _ empty_manager_consistent) as (_ & _ & P3).
  split.
  - destruct (P3 l Hl Hr) as (b & Hb & Hi & Hu). exists b. repeat split; try done.
    rewrite AvailableBooks_filter. intros [Hav _]%list_elem_of_filter. congruence.
  - apply (run_keeps_borrowers ops empty_manager); [|done..].
    intros x Hx. by apply elem_of_nil in Hx.
Qed.

Lemma active_loan_refers_to_book_and_reader_witness :
  exists r, r ∈ Readers (run [OpAddBook dune; OpAddReader ann;
                              OpIssueLoan "111" 1 "2024-01-01T10:00:00Z"] empty_manager) /\
            Id r = 1%Z.
Proof.
  refine (proj2 (active_loan_refers_to_book_and_reader
                   [OpAddBook dune; OpAddReader ann;
                    OpIssueLoan "111" 1 "2024-01-01T10:00:00Z"]
                   (mkLoan "111" 1 "2024-01-01T10:00:00Z" None) _)).
  vm_compute. left.
Defined.

(** Reader Ids stay distinct in every manager reached from the empty one. *)
Theorem reader_Ids_distinct (ops : list op) :
  NoDup (Id <$> Readers (run ops empty_manager)).
Proof.
  assert (H : forall m, NoDup (Id <$> Readers m) -> NoDup (Id <$> Readers (run ops m))).
  { induction ops as [|o ops IH]; intros m Hm; [done|].
    simpl. apply IH. destruct (step_effect m o) as [->|Heff]; [done|].
    destruct Heff as [b Hfresh | isbn l1 b l2 Hf Hav | r Hnew | id l1 r l2 Hf
                     | isbn rid now l1 b l2 Hf Hav Hreader
                     | isbn rid now k1 l k2 l1 b l2 Hloans Hisbn Hret Hf
                     | isbn rid now k1 l k2 Hloans Hisbn Hret Hno];
      simpl; try done.
    - rewrite fmap_app. apply NoDup_app. split; [done|].
      split; [|apply NoDup_singleton].
      intros i Hin. apply list_elem_of_fmap in Hin as (x & -> & Hx).
      simpl. rewrite list_elem_of_singleton. by apply Hnew.
    - destruct Hf as (Hreaders & _). rewrite Hreaders in Hm.
      rewrite <- (delete_middle l1 l2 r), list_fmap_delete.
      exact (sublist_NoDup _ _ Hm (sublist_delete _ _)). }
  apply H. constructor.
Qed.

(** In a manager reached from the empty one a book can only be removed while
    no loan of it is active. *)
Theorem RemoveBook_needs_no_active_loan (ops : list op) (isbn : string) :
  let m := run ops empty_manager in
  fst (RemoveBook m isbn) = true ->
  has_active_loan m isbn = false /\
  (forall x, x ∈ Books (snd (RemoveBook m isbn)) -> ISBN x <> isbn).
Proof.
  intros m Hok.
  pose proof (run_consistent ops _ empty_manager_consistent) as Hc.
  destruct (book_position_cases isbn (Books m)) as [[_ Hno]|(l1 & b & l2 & Hf)].
  { by rewrite (RemoveBook_missing _ _ Hno) in Hok. }
  revert Hok. rewrite (RemoveBook_first _ _ _ _ _ Hf).
  destruct (IsAvailable b) eqn:Hav; [|done]. intros _. simpl.
  destruct (first_with_books _ _ _ _ _ Hf) as (_ & Hb & Hin & _).
  split.
  - rewrite <- Hb. by apply consistent_available_book.
  - intros x Hx. destruct Hc as (P1 & _).
    exact (first_with_later_differs isbn (Books m) l1 b l2 x P1 Hf Hx).
Qed.

Lemma RemoveBook_needs_no_active_loan_witness :
  has_active_loan (run ops_one_round empty_manager) "111" = false.
Proof.
  refine (proj1 (RemoveBook_needs_no_active_loan ops_one_round "111" _)).
  reflexivity.
Defined.

Lemma run_snoc (ops : list op) (o : op) (m : LibraryManager) :
  run (ops ++ [o]) m = step (run ops m) o.
Proof. unfold run. by rewrite fold_left_app. Qed.

Lemma ReturnBook_no_active_loan (m : LibraryManager) (isbn : string) (rid : Z)
    (now : string) :
  has_active_loan m isbn = false -> ReturnBook m isbn rid now = (false, m).
Proof.
  intros Hnone. unfold ReturnBook.
  replace (find_if (active_loan_of isbn rid) (Loans m)) with (length (Loans m));
    [by rewrite Nat.eqb_refl|].
  symmetry. apply find_if_end, Forall_forall. intros l Hl.
  apply active_loan_of_false. intros (Hi & _ & Hr).
  assert (has_active_loan m isbn = true); [|congruence].
  apply has_active_loan_true. by exists l.
Qed.

(** In a manager reached from the empty one a successful ReturnBook always
    finds the book: afterwards the book of that ISBN is available, no loan of
    it is active, and returning it once more fails for every reader. *)
Theorem ReturnBook_frees_the_book (ops : list op) (isbn : string) (readerId : Z)
    (now : string) :
  let m := run ops empty_manager in
  fst (ReturnBook m isbn readerId now) = true ->
  let m' := snd (ReturnBook m isbn readerId now) in
  (exists b, b ∈ Books m' /\ ISBN b = isbn /\ IsAvailable b = true) /\
  has_active_loan m' isbn = false /\
  (forall readerId' now', ReturnBook m' isbn readerId' now' = (false, m')).
Proof.
  intros m Hok m'.
  assert (Hm' : m' = run (ops ++ [OpReturnBook isbn readerId now]) empty_manager)
    by by rewrite run_snoc.
  pose proof (run_consistent ops _ empty_manager_consistent) as (_ & _ & P3).
  pose proof (run_consistent (ops ++ [OpReturnBook isbn readerId now]) _
                empty_manager_consistent) as Hc'.
  rewrite <- Hm' in Hc'. fold m in P3.
  assert (Hbook : exists b, b ∈ Books m' /\ ISBN b = isbn /\ IsAvailable b = true).
  { subst m'. revert Hok. unfold ReturnBook.
    destruct (Nat.eqb_spec (find_if (active_loan_of isbn readerId) (Loans m))
                (length (Loans m))) as [|Hne]; [done|]. intros _. simpl.
    apply find_if_found in Hne as (k1 & l & k2 & Hloans & Hl & _ & _).
    apply active_loan_of_true in Hl as (Hi & _ & Hr).
    assert (Hl : l ∈ Loans m) by (rewrite Hloans; apply elem_of_middle; by left).
    destruct (P3 l Hl Hr) as (b0 & Hb0 & Hi0 & _).
    destruct (book_position_cases isbn (Books m)) as [[_ Hno]|(l1 & b & l2 & Hf)].
    { destruct (Hno b0 Hb0). congruence. }
    rewrite (FindBook_first _ _ _ _ _ Hf). destruct Hf as (-> & Hb & _).
    rewrite alter_middle. exists (MarkAsAvailable b).
    split; [apply elem_of_middle; by left | done]. }
  destruct Hbook as (b & Hb & Hi & Hav).
  assert (Hnone : has_active_loan m' isbn = false)
    by (rewrite <- Hi; by apply consistent_available_book).
  split; [by exists b|]. split; [done|].
  intros rid' now'. by apply ReturnBook_no_active_loan.
Qed.

Lemma ReturnBook_frees_the_book_witness :
  has_active_loan manager_with_history "111" = false.
Proof.
  refine (proj1 (proj2 (ReturnBook_frees_the_book
            [OpAddBook dune; OpAddReader ann; OpIssueLoan "111" 1 "2024-01-01T10:00:00Z"]
            "111" 1 "2024-01-08T10:00:00Z" _))).
  reflexivity.
Defined.

Lemma filter_bool_partition {A : Type} (f : A -> bool) (v : list A) :
  length (filter (fun x => f x = true) v) + length (filter (fun x => f x = false) v)
  = length v.
Proof.
  induction v as [|x v IH]; [done|]. rewrite !filter_cons.
  destruct (f x) eqn:E.
  - rewrite decide_True, decide_False by done. simpl. lia.
  - rewrite decide_False, decide_True by done. simpl. lia.
Qed.

(** The report adds up: along a run from the empty manager in which books are
    added with IsAvailable = true and no reader holding a book is removed, the
    available books and the active loans together are as many as the books. *)
Theorem report_adds_up (ops : list op) :
  regular_run ops empty_manager ->
  let m := run ops empty_manager in
  length (AvailableBooks m) + length (ActiveLoans m) = length (Books m).
Proof.
  intros Hreg m.
  pose proof (run_consistent ops _ empty_manager_consistent) as (P1 & P2 & P3).
  assert (P4 : unavailable_books_on_loan m).
  { apply regular_run_on_loan; [apply empty_manager_consistent | | done].
    intros x Hx. by apply elem_of_nil in Hx. }
  fold m in P1, P2, P3.
  rewrite AvailableBooks_filter, ActiveLoans_filter.
  rewrite <- (filter_bool_partition IsAvailable (Books m)). f_equal.
  rewrite <- (length_fmap BookISBN), <- (length_fmap ISBN (filter _ (Books m))).
  apply Permutation_length, NoDup_Permutation.
  - by apply active_ISBNs_distinct.
  - eapply sublist_NoDup; [exact P1|]. apply fmap_sublist, sublist_filter.
  - intros i. rewrite !list_elem_of_fmap. split.
    + intros (l & -> & Hl). apply list_elem_of_filter in Hl as [Hr Hl].
      destruct (P3 l Hl Hr) as (b & Hb & Hi & Hu). exists b. split; [done|].
      by apply list_elem_of_filter.
    + intros (b & -> & Hb). apply list_elem_of_filter in Hb as [Hu Hb].
      destruct (P4 b Hb Hu) as (l & Hl & Hi & Hr). exists l. split; [done|].
      by apply list_elem_of_filter.
Qed.

Lemma report_adds_up_witness :
  let m := run [OpAddBook dune; OpAddReader ann;
                OpIssueLoan "111" 1 "2024-01-01T10:00:00Z"] empty_manager in
  length (AvailableBooks m) + length (ActiveLoans m) = length (Books m).
Proof.
  apply (report_adds_up [OpAddBook dune; OpAddReader ann;
                         OpIssueLoan "111" 1 "2024-01-01T10:00:00Z"]).
  simpl. repeat split.
Defined.

(** Whatever manager is at hand (loaded from files or built by operations), as
    long as no reader has the largest int as Id, NextReaderId is at least 1
    and above every Id present, and AddReader accepts a reader with it. *)
Theorem NextReaderId_is_fresh (m : LibraryManager) (name email : string) :
  Forall (fun r => (Id r < INT_MAX)%Z) (Readers m) ->
  (1 <= NextReaderId m <= INT_MAX)%Z /\
  Forall (fun r => (Id r < NextReaderId m)%Z) (Readers m) /\
  AddReader m (mkReader (NextReaderId m) name email) =
    (true, mkLibraryManager (Books m)
             (Readers m ++ [mkReader (NextReaderId m) name email]) (Loans m)).
Proof.
  intros Hall.
  destruct (NextReaderId_above m (INT_MAX - 1)) as [Hrange Habove].
  { unfold INT_MAX. lia. }
  { eapply Forall_impl; [exact Hall|]. simpl. intros; lia. }
  split; [lia|]. split; [done|].
  unfold AddReader. simpl.
  destruct (existsb _ _) eqn:E; [|done].
  apply existsb_exists in E as (x & Hx & Hid). apply id_is_true in Hid.
  rewrite Forall_forall in Habove. apply list_elem_of_In in Hx.
  specialize (Habove x Hx). lia.
Qed.

Lemma NextReaderId_is_fresh_witness :
  AddReader manager_with_duplicates (mkReader (NextReaderId manager_with_duplicates) "Bob" "") =
    (true, mkLibraryManager [dune; messiah] [ann; mkReader 2 "Bob" ""] []).
Proof.
  refine (proj2 (proj2 (NextReaderId_is_fresh manager_with_duplicates "Bob" "" _))).
  repeat constructor.
Defined.

(** * More on Save and Load *)

(** Save writes the three destinations and nothing else. *)
Theorem Save_leaves_other_files (env : os) (m : LibraryManager) (fs : files)
    (books readers loans file : string) :
  file <> file_of env books -> file <> file_of env readers ->
  file <> file_of env loans ->
  Save env m fs books readers loans !! file = fs !! file.
Proof.
  intros ???. unfold Save, write_file.
  repeat destruct (can_write env _); by rewrite ?lookup_insert_ne.
Qed.

Lemma Save_leaves_other_files_witness :
  Save plain_os manager_with_history fs_bad_readers "b.json" "r.json" "l.json"
    !! "readers.json" = Some Unparsable.
Proof.
  rewrite (Save_leaves_other_files plain_os manager_with_history fs_bad_readers
             "b.json" "r.json" "l.json" "readers.json") by discriminate.
  reflexivity.
Defined.

(** Saving again overwrites: after two saves to the same destinations the
    files are those of the second save alone, also when destinations
    coincide. *)
Theorem Save_overwrites (env : os) (m1 m2 : LibraryManager) (fs : files)
    (books readers loans : string) :
  Save env m2 (Save env m1 fs books readers loans) books readers loans =
  Save env m2 fs books readers loans.
Proof.
  apply map_eq. intros k. unfold Save, write_file.
  destruct (can_write env (file_of env books)),
           (can_write env (file_of env readers)),
           (can_write env (file_of env loans));
    rewrite ?lookup_insert; repeat case_decide; done.
Qed.

Lemma read_into_empty_array {A : Type} (from_json : json -> outcome A) (env : os)
    (fs : files) (p path : string) (v : list A) :
  fs !! p = None ->
  read_into from_json env (<[p := Document (JArray [])]> fs) path v =
  read_into from_json env fs path v.
Proof.
  intros Hp. unfold read_into, open_read.
  destruct (can_read env (file_of env path)); [|done].
  rewrite lookup_insert. case_decide; [|done]. subst. by rewrite Hp.
Qed.

(** For Load a missing file is the same as a file holding an empty array. *)
Theorem Load_missing_file_as_empty_array (env : os) (m0 : LibraryManager) (fs : files)
    (books readers loans file : string) :
  fs !! file = None ->
  Load env m0 (<[file := Document (JArray [])]> fs) books readers loans =
  Load env m0 fs books readers loans.
Proof. intros Hp. unfold Load. by rewrite !read_into_empty_array. Qed.

Lemma Load_missing_file_as_empty_array_witness :
  Load plain_os empty_manager (<["loans.json" := Document (JArray [])]> fs_duplicate_isbn)
    "books.json" "readers.json" "loans.json" =
  Load plain_os empty_manager fs_duplicate_isbn "books.json" "readers.json" "loans.json".
Proof. by apply Load_missing_file_as_empty_array. Defined.

Lemma Book_from_json_no_abort (j : json) : Book_from_json j <> Abort.
Proof.
  unfold Book_from_json, value_string, value_bool. destruct j as [| | | | |ms]; try done.
  repeat (match goal with
          | |- context [json_find ?k ms] => destruct (json_find k ms) as [[]|]
          end; simpl; try done).
Qed.

Lemma push_all_no_abort {A : Type} (from_json : json -> outcome A) (items : list json)
    (v : list A) :
  (forall j, from_json j <> Abort) -> snd (push_all from_json items v) <> Abort.
Proof.
  intros H. revert v. induction items as [|x items IH]; intros v; simpl; [done|].
  pose proof (H x). destruct (from_json x); [apply IH | done | done].
Qed.

(** A readers file that does not parse makes Load return with no reader and
    no loan, whatever the loans file holds, and with the books it had read
    until then. *)
Theorem Load_after_unparsable_readers (env : os) (m0 : LibraryManager) (fs : files)
    (books readers loans : string) :
  open_read env fs readers = Some Unparsable ->
  Load env m0 fs books readers loans =
    Some (mkLibraryManager (fst (read_into Book_from_json env fs books [])) [] []).
Proof.
  intros Hr. unfold Load.
  assert (Hb : snd (read_into Book_from_json env fs books []) <> Abort).
  { unfold read_into. destruct (open_read env fs books) as [[|j]|]; try done.
    apply push_all_no_abort, Book_from_json_no_abort. }
  destruct (read_into Book_from_json env fs books []) as [bs [[]| |]];
    simpl in *; try done.
  unfold read_into at 1. by rewrite Hr.
Qed.

Lemma Load_after_unparsable_readers_witness :
  Load plain_os empty_manager (<["loans.json" := Document (JArray [Loan_to_json
                          (mkLoan "111" 1 "2024-01-01T10:00:00Z" None)])]> fs_bad_readers)
    "books.json" "readers.json" "loans.json" = Some (mkLibraryManager [dune] [] []).
Proof.
  rewrite Load_after_unparsable_readers by reflexivity. reflexivity.
Defined.

(** A book object lacking a member decodes with that member's default: empty
    text for Title, Author and ISBN, and available; members the program does
    not know are ignored. *)
Theorem Book_from_json_defaults (members : list (string * json)) (b : Book) :
  Book_from_json (JObject members) = Ok b ->
  (json_find "Title" members = None -> Title b = "") /\
  (json_find "Author" members = None -> Author b = "") /\
  (json_find "ISBN" members = None -> ISBN b = "") /\
  (json_find "IsAvailable" members = None -> IsAvailable b = true) /\
  (forall t, json_find "Title" members = Some (JString t) -> Title b = t) /\
  (forall a, json_find "Author" members = Some (JString a) -> Author b = a) /\
  (forall i, json_find "ISBN" members = Some (JString i) -> ISBN b = i) /\
  (forall a, json_find "IsAvailable" members = Some (JBool a) -> IsAvailable b = a).
Proof.
  unfold Book_from_json, value_string, value_bool.
  destruct (json_find "Title" members) as [[]|]; simpl; try done;
  destruct (json_find "Author" members) as [[]|]; simpl; try done;
  destruct (json_find "ISBN" members) as [[]|]; simpl; try done;
  destruct (json_find "IsAvailable" members) as [[]|]; simpl; try done;
  intros [= <-]; simpl; repeat split; congruence.
Qed.

Lemma Book_from_json_defaults_witness :
  Book_from_json (JObject [("ISBN", JString "111"); ("Pages", JInt 412)]) =
    Ok (mkBook "" "" "111" true) /\
  IsAvailable (mkBook "" "" "111" true) = true.
Proof.
  assert (H : Book_from_json (JObject [("ISBN", JString "111"); ("Pages", JInt 412)]) =
              Ok (mkBook "" "" "111" true)) by reflexivity.
  split; [exact H|].
  destruct (Book_from_json_defaults _ _ H) as (_ & _ & _ & Hav & _).
  by apply Hav.
Defined.

(** * The interactive loop *)

Lemma wrap_int_range (z : Z) : in_int (wrap_int z).
Proof.
  unfold in_int, INT_MIN, INT_MAX, wrap_int.
  pose proof (Z.mod_pos_bound (z + 2147483648) 4294967296 ltac:(lia)). lia.
Qed.

Lemma stoi_in_range (s : string) (z : Z) : stoi s = Ok z -> in_int z.
Proof.
  unfold stoi. repeat case_match; try done; intros [= <-];
    match goal with
    | H : (_ && _) = true |- _ => apply andb_true_iff in H as [?%Z.leb_le ?%Z.leb_le]
    end; done.
Qed.

Lemma Reader_from_json_range (j : json) (r : Reader) :
  Reader_from_json j = Ok r -> in_int (Id r).
Proof.
  unfold Reader_from_json, value_int, value_string, bind.
  repeat case_match; try done; intros [= <-]; simplify_eq; simpl;
    try apply wrap_int_range; unfold in_int, INT_MIN, INT_MAX; lia.
Qed.

Lemma Loan_from_json_range (j : json) (l : Loan) :
  Loan_from_json j = Ok l -> in_int (ReaderId l).
Proof.
  unfold Loan_from_json, value_int, value_string, const_at, bind.
  repeat case_match; try done; intros [= <-]; simplify_eq; simpl;
    try apply wrap_int_range; unfold in_int, INT_MIN, INT_MAX; lia.
Qed.

Lemma push_all_Forall {A : Type} (P : A -> Prop) (from_json : json -> outcome A)
    (items : list json) (v : list A) :
  (forall j a, from_json j = Ok a -> P a) -> Forall P v ->
  Forall P (fst (push_all from_json items v)).
Proof.
  intros H. revert v. induction items as [|x items IH]; intros v Hv; simpl; [done|].
  destruct (from_json x) as [a| |] eqn:E; [|done..].
  apply IH, Forall_app. split; [done|]. constructor; [by apply (H x) | constructor].
Qed.

Lemma read_into_Forall {A : Type} (P : A -> Prop) (from_json : json -> outcome A)
    (env : os) (fs : files) (path : string) :
  (forall j a, from_json j = Ok a -> P a) ->
  Forall P (fst (read_into from_json env fs path [])).
Proof.
  intros H. unfold read_into. destruct (open_read env fs path) as [[|j]|]; try constructor.
  by apply push_all_Forall.
Qed.

(** What Load returns holds ints in its Id fields. *)
Lemma Load_ints_in_range (env : os) (m0 m : LibraryManager) (fs : files)
    (books readers loans : string) :
  Load env m0 fs books readers loans = Some m -> ints_in_range m.
Proof.
  unfold Load.
  pose proof (read_into_Forall _ _ env fs readers Reader_from_json_range) as Hr.
  pose proof (read_into_Forall _ _ env fs loans Loan_from_json_range) as Hl.
  destruct (read_into Book_from_json env fs books []) as [bs o1].
  destruct (read_into Reader_from_json env fs readers []) as [rs o2].
  destruct (read_into Loan_from_json env fs loans []) as [ls o3]. simpl in *.
  destruct o1; [|intros [= <-]; split; constructor | done].
  destruct o2; [|intros [= <-]; split; [done | constructor] | done].
  destruct o3; try done; by intros [= <-].
Qed.

Lemma step_ints_in_range (m : LibraryManager) (o : op) :
  from_menu o -> ints_in_range m -> ints_in_range (step m o).
Proof.
  intros Ho [Hr Hl].
  destruct (step_effect m o) as [->|Heff]; [done|].
  destruct Heff as [b Hfresh | isbn l1 b l2 Hf Hav | r Hnew | id l1 r l2 Hf
                   | isbn rid now l1 b l2 Hf Hav Hreader
                   | isbn rid now k1 l k2 l1 b l2 Hloans Hisbn Hret Hf
                   | isbn rid now k1 l k2 Hloans Hisbn Hret Hno];
    split; simpl in *; try done.
  - apply Forall_app. split; [done|]. by constructor.
  - destruct Hf as (Hrs & _). rewrite Hrs in Hr.
    apply Forall_app in Hr as [H1 H2]. apply Forall_cons in H2 as [_ H2].
    apply Forall_app. by split.
  - apply Forall_forall. intros x [_ Hx]%list_elem_of_filter.
    rewrite Forall_forall in Hl. by apply Hl.
  - apply Forall_app. split; [done|]. by constructor.
  - rewrite Hloans in Hl. apply Forall_app in Hl as [H1 H2].
    apply Forall_cons in H2 as [H2 H3]. apply Forall_app. split; [done|].
    by constructor.
  - rewrite Hloans in Hl. apply Forall_app in Hl as [H1 H2].
    apply Forall_cons in H2 as [H2 H3]. apply Forall_app. split; [done|].
    by constructor.
Qed.

Lemma run_ints_in_range (ops : list op) (m : LibraryManager) :
  Forall from_menu ops -> ints_in_range m -> ints_in_range (run ops m).
Proof.
  intros H. revert m. induction H as [|o ops Ho _ IH]; intros m Hm; [done|].
  simpl. by apply IH, step_ints_in_range.
Qed.

Lemma getline_keeps (s s' : session) (line : string) :
  getline s = (line, s') -> mgr s' = mgr s /\ disk s' = disk s.
Proof. unfold getline. destruct (stdin s); by intros [= <- <-]. Qed.

Lemma ask_keeps (prompt : string) (s s' : session) (line : string) :
  ask prompt s = (line, s') -> mgr s' = mgr s /\ disk s' = disk s.
Proof. unfold ask. intros H. by apply getline_keeps in H. Qed.

Lemma fold_print_keeps {A : Type} (text : A -> string) (v : list A) (s : session) :
  mgr (fold_left (fun s x => print (text x) s) v s) = mgr s /\
  disk (fold_left (fun s x => print (text x) s) v s) = disk s.
Proof.
  revert s. induction v as [|x v IH]; intros s; [done|]. simpl.
  destruct (IH (print (text x) s)) as [Hm Hd]. by rewrite Hm, Hd.
Qed.

Lemma follows_refl (s s' : session) : mgr s' = mgr s -> follows s s'.
Proof. intros H. exists []. by split. Qed.

Lemma follows_step (s s' : session) (o : op) :
  from_menu o -> mgr s' = step (mgr s) o -> follows s s'.
Proof. intros Ho H. exists [o]. split; [by repeat constructor | done]. Qed.

Lemma follows_trans (s1 s2 s3 : session) : follows s1 s2 -> follows s2 s3 -> follows s1 s3.
Proof.
  intros (ops1 & H1 & E1) (ops2 & H2 & E2). exists (ops1 ++ ops2).
  split; [by apply Forall_app|]. unfold run in *. by rewrite fold_left_app, <- E1.
Qed.

Ltac asks :=
  repeat match goal with
         | |- context [ask ?p ?s] =>
             let line := fresh "line" in
             let s' := fresh "s" in
             let E := fresh "E" in
             destruct (ask p s) as [line s'] eqn:E;
             apply ask_keeps in E as [? ?]
         end.

Lemma cmd_add_book_sound (env : os) (s s' : session) (a : after) :
  cmd_add_book s = (a, s') -> follows s s' /\ disk_after env a s s'.
Proof.
  unfold cmd_add_book. asks.
  destruct (AddBook _ _) as [ok m] eqn:Eo. intros [= <- <-]. split; [|simpl; congruence].
  apply (follows_step _ _ (OpAddBook (mkBook line line0 line1 true))); [done|].
  replace (mgr s) with (mgr s2) by congruence. unfold step. by rewrite Eo.
Qed.

Lemma cmd_remove_book_sound (env : os) (s s' : session) (a : after) :
  cmd_remove_book s = (a, s') -> follows s s' /\ disk_after env a s s'.
Proof.
  unfold cmd_remove_book. asks.
  destruct (RemoveBook _ _) as [ok m] eqn:Eo. intros [= <- <-]. split; [|simpl; congruence].
  apply (follows_step _ _ (OpRemoveBook line)); [done|].
  replace (mgr s) with (mgr s0) by congruence. unfold step. by rewrite Eo.
Qed.

Lemma cmd_add_reader_sound (env : os) (s s' : session) (a : after) :
  cmd_add_reader s = (a, s') -> follows s s' /\ disk_after env a s s'.
Proof.
  unfold cmd_add_reader. asks.
  destruct (AddReader _ _) as [ok m] eqn:Eo. intros [= <- <-]. split; [|simpl; congruence].
  apply (follows_step _ _ (OpAddReader (mkReader (NextReaderId (mgr s)) line line0))).
  { apply wrap_int_range. }
  assert (Hm : mgr s1 = mgr s) by congruence. rewrite Hm in Eo.
  unfold step. by rewrite Eo.
Qed.

Lemma cmd_remove_reader_sound (env : os) (s s' : session) (a : after) :
  cmd_remove_reader s = (a, s') -> follows s s' /\ disk_after env a s s'.
Proof.
  unfold cmd_remove_reader. asks. destruct (stoi line) as [id| |] eqn:Ei.
  - destruct (RemoveReader _ _) as [ok m] eqn:Eo. intros [= <- <-].
    split; [|simpl; congruence].
    apply (follows_step _ _ (OpRemoveReader id)); [done|].
    replace (mgr s) with (mgr s0) by congruence. unfold step. by rewrite Eo.
  - intros [= <- <-]. split; [by apply follows_refl | done].
  - intros [= <- <-]. split; [by apply follows_refl | done].
Qed.

Lemma cmd_issue_sound (env : os) (now : nat -> string) (s s' : session) (a : after) :
  cmd_issue now s = (a, s') -> follows s s' /\ disk_after env a s s'.
Proof.
  unfold cmd_issue. asks. destruct (stoi line) as [rid| |] eqn:Ei.
  - asks. destruct (IssueLoan _ _ _ _) as [ok m] eqn:Eo. intros [= <- <-].
    split; [|destruct ok; simpl; congruence].
    apply (follows_step _ _ (OpIssueLoan line0 rid (now (clock_reads s1)))).
    { by apply stoi_in_range in Ei. }
    replace (mgr s) with (mgr s1) by congruence. unfold step. rewrite Eo. by destruct ok.
  - intros [= <- <-]. split; [by apply follows_refl | done].
  - intros [= <- <-]. split; [by apply follows_refl | done].
Qed.

Lemma cmd_return_sound (env : os) (now : nat -> string) (s s' : session) (a : after) :
  cmd_return now s = (a, s') -> follows s s' /\ disk_after env a s s'.
Proof.
  unfold cmd_return. asks. destruct (stoi line) as [rid| |] eqn:Ei.
  - asks. destruct (ReturnBook _ _ _ _) as [ok m] eqn:Eo. intros [= <- <-].
    split; [|destruct ok; simpl; congruence].
    apply (follows_step _ _ (OpReturnBook line0 rid (now (clock_reads s1)))); [done|].
    replace (mgr s) with (mgr s1) by congruence. unfold step. rewrite Eo. by destruct ok.
  - intros [= <- <-]. split; [by apply follows_refl | done].
  - intros [= <- <-]. split; [by apply follows_refl | done].
Qed.

Lemma cmd_search_sound (env : os) (s s' : session) (a : after) :
  cmd_search s = (a, s') -> follows s s' /\ disk_after env a s s'.
Proof.
  unfold cmd_search. asks. intros [= <- <-].
  destruct (fold_print_keeps search_line (SearchBooks (mgr s0) line) s0) as [Hm Hd].
  split; [apply follows_refl | simpl]; congruence.
Qed.

Lemma cmd_reports_sound (env : os) (s s' : session) (a : after) :
  cmd_reports s = (a, s') -> follows s s' /\ disk_after env a s s'.
Proof.
  unfold cmd_reports. intros [= <- <-]. split; [apply follows_refl | simpl].
  - rewrite (proj1 (fold_print_keeps loan_line _ _)). simpl.
    by rewrite (proj1 (fold_print_keeps available_line _ _)).
  - rewrite (proj2 (fold_print_keeps loan_line _ _)). simpl.
    by rewrite (proj2 (fold_print_keeps available_line _ _)).
Qed.

(** One pass through the loop changes the manager by menu operations only and
    writes the files only when it leaves through command 9. *)
Lemma iteration_sound (env : os) (now : nat -> string) (s s' : session) (a : after) :
  iteration env now s = (a, s') -> follows s s' /\ disk_after env a s s'.
Proof.
  unfold iteration. destruct (getline (print menu s)) as [cmd s1] eqn:Eg.
  apply getline_keeps in Eg as [Hm Hd]. simpl in Hm, Hd.
  assert (Hback : forall s2, follows s1 s2 /\ disk_after env a s1 s2 ->
                             follows s s2 /\ disk_after env a s s2).
  { intros s2 [(ops & Hops & E) Hdisk]. split.
    - exists ops. split; [done | congruence].
    - destruct a; simpl in *; congruence. }
  repeat case_match; intros Hit; apply Hback.
  - by apply cmd_add_book_sound.
  - by apply cmd_remove_book_sound.
  - by apply cmd_add_reader_sound.
  - by apply cmd_remove_reader_sound.
  - by apply (cmd_issue_sound env now).
  - by apply (cmd_return_sound env now).
  - by apply cmd_search_sound.
  - by apply cmd_reports_sound.
  - injection Hit as <- <-. split; [by apply follows_refl | done].
  - injection Hit as <- <-. split; [by apply follows_refl | done].
  - injection Hit as <- <-. split; [by apply follows_refl | done].
Qed.

Lemma loop_sound (env : os) (fuel : nat) (now : nat -> string) (s s' : session)
    (a : after) :
  loop env fuel now s = (a, s') -> follows s s' /\ disk_after env a s s'.
Proof.
  revert s. induction fuel as [|fuel IH]; intros s; simpl.
  - intros [= <- <-]. split; [by apply follows_refl | done].
  - destruct (iteration env now s) as [a1 s1] eqn:Ei.
    apply iteration_sound in Ei as [Hf Hd].
    destruct a1; try (intros [= <- <-]; by split).
    intros Hloop. apply IH in Hloop as [Hf' Hd'].
    split; [by apply (follows_trans s s1) |].
    simpl in Hd. destruct a; simpl in *; congruence.
Qed.

Lemma main_sound (env : os) (fuel : nat) (now : nat -> string) (fs : files)
    (input : list string) (a : after) (s : session) :
  main env fuel now fs input = Some (a, s) ->
  exists m ops,
    Load env empty_manager fs booksFile readersFile loansFile = Some m /\
    Forall from_menu ops /\ mgr s = run ops m /\
    match a with
    | SavedExit => disk s = Save env (mgr s) fs booksFile readersFile loansFile
    | _ => disk s = fs
    end.
Proof.
  unfold main, startup.
  destruct (Load env empty_manager fs booksFile readersFile loansFile) as [m|] eqn:El;
    [|done].
  intros [= Hloop]. apply loop_sound in Hloop as [(ops & Hops & Hrun) Hdisk].
  exists m, ops. split; [done|]. split; [done|]. split; [done|]. by destruct a.
Qed.

(** What a session saves is what the next session starts with, on a system
    where books.json, readers.json and loans.json are three different files
    that can be written and read back: when [main] is left through command 9,
    starting the program again on the files it wrote gives the manager of the
    session that ended. *)
Theorem saved_session_is_reloaded (env : os) (fuel : nat) (now : nat -> string)
    (fs : files) (input input' : list string) (s : session) :
  destinations_usable env booksFile readersFile loansFile ->
  main env fuel now fs input = Some (SavedExit, s) ->
  exists s0, startup env (disk s) input' = Some s0 /\ mgr s0 = mgr s.
Proof.
  intros Husable Hmain.
  apply main_sound in Hmain as (m & ops & Hload & Hops & Hrun & Hdisk).
  assert (Hints : ints_in_range (mgr s)).
  { rewrite Hrun. apply run_ints_in_range; [done|]. by apply Load_ints_in_range in Hload. }
  unfold startup. rewrite Hdisk, Load_of_Save by done. by eexists.
Qed.

Lemma saved_session_is_reloaded_witness :
  let input := ["1"; "Dune"; "Herbert"; "111"; "9"] in
  let s := snd (loop plain_os 2 (fun _ => "")
              (mkSession empty_manager input
                 ("Library system started. Loaded 0 books, 0 readers." +:+ LF) 0 ∅)) in
  exists s0, startup plain_os (disk s) [] = Some s0 /\ mgr s0 = mgr s.
Proof.
  intros input s.
  assert (Husable : destinations_usable plain_os booksFile readersFile loansFile).
  { repeat split; try discriminate. repeat constructor. }
  assert (H : main plain_os 2 (fun _ => "") ∅ input = Some (SavedExit, s))
    by (vm_compute; reflexivity).
  exact (saved_session_is_reloaded plain_os 2 (fun _ => "") ∅ input [] s Husable H).
Defined.

(** The files change only when [main] is left through command 9: after any
    other end of a session (command 0, an uncaught exception, or input still
    being processed) they are as at the start, and command 9 itself touches
    no file but the three data files. *)
Theorem files_written_only_by_save_exit (env : os) (fuel : nat) (now : nat -> string)
    (fs : files) (input : list string) (a : after) (s : session) :
  main env fuel now fs input = Some (a, s) ->
  (a <> SavedExit -> disk s = fs) /\
  (forall file, file <> file_of env booksFile -> file <> file_of env readersFile ->
     file <> file_of env loansFile ->
     disk s !! file = fs !! file).
Proof.
  intros Hmain. apply main_sound in Hmain as (m & ops & _ & _ & _ & Hdisk).
  split.
  - intros Ha. by destruct a.
  - intros file ???. destruct a; rewrite Hdisk; try done.
    unfold Save, write_file. repeat destruct (can_write env _); by rewrite ?lookup_insert_ne.
Qed.

Lemma files_written_only_by_save_exit_witness :
  let input := ["1"; "Dune"; "Herbert"; "111"; "0"] in
  let s := snd (loop plain_os 2 (fun _ => "")
              (mkSession empty_manager input
                 ("Library system started. Loaded 0 books, 0 readers." +:+ LF) 0 ∅)) in
  disk s = ∅.
Proof.
  intros input s.
  assert (H : main plain_os 2 (fun _ => "") ∅ input = Some (PlainExit, s))
    by (vm_compute; reflexivity).
  refine (proj1 (files_written_only_by_save_exit plain_os 2 (fun _ => "") ∅ input
                   PlainExit s H) _).
  discriminate.
Defined.

Lemma loop_at_end_of_input (env : os) (fuel : nat) (now : nat -> string) (s : session) :
  stdin s = [] ->
  exists s', loop env fuel now s = (Again, s') /\ stdin s' = [] /\ mgr s' = mgr s /\
             disk s' = disk s.
Proof.
  revert s. induction fuel as [|fuel IH]; intros s Hs; simpl; [by exists s|].
  assert (Hit : exists s1, iteration env now s = (Again, s1) /\ stdin s1 = [] /\
                           mgr s1 = mgr s /\ disk s1 = disk s).
  { unfold iteration, getline. simpl. rewrite Hs. simpl. eexists.
    split; [reflexivity|]. by simpl. }
  destruct Hit as (s1 & -> & Hs1 & Hm1 & Hd1).
  destruct (IH s1 Hs1) as (s' & Hloop & ? & ? & ?).
  exists s'. split; [done|]. split; [done|]. split; congruence.
Qed.

(** At the end of the input the program does not stop: with nothing left to
    read every pass through the loop takes the empty line for an unknown
    command, so however long it runs it has neither exited nor changed the
    manager or the files. *)
Theorem end_of_input_never_exits (env : os) (fuel : nat) (now : nat -> string)
    (fs : files) (a : after) (s : session) :
  main env fuel now fs [] = Some (a, s) ->
  a = Again /\ disk s = fs /\
  Load env empty_manager fs booksFile readersFile loansFile = Some (mgr s).
Proof.
  unfold main, startup.
  destruct (Load env empty_manager fs booksFile readersFile loansFile) as [m|]; [|done].
  intros [= Hloop].
  edestruct (loop_at_end_of_input env fuel now) as (s' & Hs' & _ & Hm & Hd);
    [|rewrite Hs' in Hloop]; [done|].
  injection Hloop as <- <-. by rewrite Hm, Hd.
Qed.

Lemma end_of_input_never_exits_witness :
  let r := loop plain_os 7 (fun _ => "")
             (mkSession empty_manager []
                ("Library system started. Loaded 0 books, 0 readers." +:+ LF) 0 ∅) in
  r = (fst r, snd r) /\ fst r = Again.
Proof.
  intros r.
  assert (H : main plain_os 7 (fun _ => "") ∅ [] = Some (fst r, snd r))
    by (vm_compute; reflexivity).
  split; [by destruct r|].
  exact (proj1 (end_of_input_never_exits plain_os 7 (fun _ => "") ∅ (fst r) (snd r) H)).
Defined.

(** A reader Id that is no number ends the process: in commands 4, 5 and 6
    the exception of [std::stoi] is not caught, the manager is left as it was
    and nothing is saved. *)
Theorem bad_number_ends_the_process (env : os) (now : nat -> string) (s : session)
    (cmd line : string) (rest : list string) :
  stdin s = cmd :: line :: rest ->
  cmd = "4" \/ cmd = "5" \/ cmd = "6" ->
  stoi line = Throw ->
  exists s', iteration env now s = (Terminated, s') /\ mgr s' = mgr s /\
             disk s' = disk s.
Proof.
  intros Hs Hcmd Hline. unfold iteration, getline. simpl. rewrite Hs.
  destruct Hcmd as [->|[->| ->]]; simpl.
  - unfold cmd_remove_reader, ask, getline. simpl. rewrite Hline. by eexists.
  - unfold cmd_issue, ask, getline. simpl. rewrite Hline. by eexists.
  - unfold cmd_return, ask, getline. simpl. rewrite Hline. by eexists.
Qed.

Lemma bad_number_ends_the_process_witness :
  exists s', iteration plain_os (fun _ => "")
               (mkSession manager_with_duplicates ["4"; "one"; "9"] "" 0 ∅)
             = (Terminated, s') /\
             mgr s' = manager_with_duplicates /\ disk s' = ∅.
Proof.
  apply (bad_number_ends_the_process plain_os (fun _ => "")
           (mkSession manager_with_duplicates ["4"; "one"; "9"] "" 0 ∅) "4" "one" ["9"]).
  - reflexivity.
  - by left.
  - reflexivity.
Defined.

(** In a session started without data files (none of the three exists or can
    be read) the manager is at every moment one reached from the empty
    manager: ISBNs are distinct, no book has two active loans, the book of an
    active loan is present and unavailable, its borrower is present, and an
    available book has no active loan. *)
Theorem fresh_session_is_consistent (env : os) (fuel : nat) (now : nat -> string)
    (fs : files) (input : list string) (a : after) (s : session) :
  open_read env fs booksFile = None -> open_read env fs readersFile = None ->
  open_read env fs loansFile = None ->
  main env fuel now fs input = Some (a, s) ->
  reachable (mgr s) /\ loans_consistent (mgr s) /\ borrowers_present (mgr s) /\
  (forall b, b ∈ Books (mgr s) -> IsAvailable b = true ->
             has_active_loan (mgr s) (ISBN b) = false).
Proof.
  intros Hb Hr Hl Hmain.
  apply main_sound in Hmain as (m & ops & Hload & _ & Hrun & _).
  assert (m = empty_manager) as ->.
  { revert Hload. unfold Load, read_into. rewrite Hb, Hr, Hl. by intros [= <-]. }
  assert (Hc : loans_consistent (mgr s))
    by (rewrite Hrun; apply run_consistent, empty_manager_consistent).
  split; [by exists ops|]. split; [done|]. split.
  - rewrite Hrun. apply run_keeps_borrowers. intros x Hx. by apply elem_of_nil in Hx.
  - intros b. by apply consistent_available_book.
Qed.

Lemma fresh_session_is_consistent_witness :
  let input := ["1"; "Dune"; "Herbert"; "111"; "0"] in
  let s := snd (loop plain_os 3 (fun _ => "")
              (mkSession empty_manager input
                 ("Library system started. Loaded 0 books, 0 readers." +:+ LF) 0 ∅)) in
  reachable (mgr s).
Proof.
  intros input s.
  assert (H : main plain_os 3 (fun _ => "") ∅ input = Some (PlainExit, s))
    by (vm_compute; reflexivity).
  exact (proj1 (fresh_session_is_consistent plain_os 3 (fun _ => "") ∅ input PlainExit s
                  eq_refl eq_refl eq_refl H)).
Defined.
